(** * gsar: pattern compiler, filter-mode summary and transactional commit

    A shallow embedding of [gsar.c] (General Search And Replace, v1.51) and
    the properties of its pattern compiler ([GetPattern], [Text2Byte],
    [ParseHexLine], [DoExpansion]), of the filter-mode driver
    ([StreamSearchReplace]) and of the file commit protocol
    ([OneSearchReplace], [SearchReplace], [CtrlBreak]).

    Conventions.
    - A C string is the list of its characters before the terminating NUL;
      a character is the value of its byte, an integer in 0..255.
    - A [char] stored into a pattern buffer is recorded by its byte value
      (0..255): the conversion [(char) v] keeps [v] modulo 256.
    - [Abort] prints a message and calls [exit]: a function that reaches it
      does not return. *)

From stdpp Require Import base numbers list strings gmap.
From Stdlib Require Import ZArith Lia Ascii.

Local Open Scope Z_scope.

(** ** Characters and C strings *)

Module Ctype.

(** [isdigit], [isxdigit], [isspace], [toupper], [tolower] of <ctype.h>
    in the "C" locale. *)
Definition isdigit (c : Z) : bool := (48 <=? c) && (c <=? 57).

Definition isxdigit (c : Z) : bool :=
  isdigit c || ((65 <=? c) && (c <=? 70)) || ((97 <=? c) && (c <=? 102)).

Definition isspace (c : Z) : bool := (c =? 32) || ((9 <=? c) && (c <=? 13)).

Definition toupper (c : Z) : Z :=
  if (97 <=? c) && (c <=? 122) then c - 32 else c.

Definition tolower (c : Z) : Z :=
  if (65 <=? c) && (c <=? 90) then c + 32 else c.

End Ctype.

(** The characters of a string literal, as byte values. *)
Fixpoint cstr (s : string) : list Z :=
  match s with
  | EmptyString => []
  | String a s' => Z.of_N (Ascii.N_of_ascii a) :: cstr s'
  end.

(** ** The ways the pattern compiler gives up

    One constructor per call of [Abort] in the pattern compiler, with the
    message of the call. *)
Inductive abort : Type :=
| AbortNotHexNumber (number : list Z)
    (* "command error, not a valid hexadecimal number : %s\n", &number[1] *)
| AbortNotDecNumber (number : list Z)
    (* "command error, not a valid decimal number : %s\n", number *)
| AbortSingleColon
    (* "command error, a single colon must be followed by three decimal
       digits or an 'x' followed by 2 hexadecimal numbers\n" *)
| AbortBufferLength
    (* "command error, length of search or replace buffer must not exceed
       %d bytes", PAT_BUFSIZ *)
| AbortOddHex
    (* "command error, hex string cannot have an odd number of characters" *)
| AbortNotHexDigit (c : Z)
    (* "command error, not a valid hexadecimal digit : %c", pIn[i] *)
| AbortExpanded
    (* "command error, expanded buffer cannot exceed %d bytes", PAT_BUFSIZ *).

(** The error taxonomy of the specification. *)
Inductive error : Type := MalformedPattern | PatternTooLong.

Definition error_of (a : abort) : error :=
  match a with
  | AbortBufferLength | AbortExpanded => PatternTooLong
  | _ => MalformedPattern
  end.

(** What a compilation function did: it returned after storing [out] at
    [pBuffer[0..]], or it aborted with [written] already stored there. *)
Inductive outcome : Type :=
| Returned (out : list Z)
| Aborted (a : abort) (written : list Z).

Definition stored (o : outcome) : list Z :=
  match o with Returned out => out | Aborted _ written => written end.

Definition fails_with (o : outcome) (e : error) : Prop :=
  ∃ a written, o = Aborted a written ∧ error_of a = e.

(** ** Hex-literal mode *)

(** [Text2Byte(p)], reading [p[0]] and [p[1]]. *)
Definition Text2Byte (p0 p1 : Z) : Z :=
  let x := Ctype.toupper p0 - 48 in
  let x := x - (if 9 <? x then 7 else 0) in
  let y := Ctype.toupper p1 - 48 in
  let y := y - (if 9 <? y then 7 else 0) in
  (Z.lor (Z.shiftl (Z.land x 15) 4) (Z.land y 15)) mod 256.

(** The [for] loop of [ParseHexLine]: [pIn] is the input from index [i] on
    and [pOut] the [j] bytes stored so far.  Only [pIn[i]] is tested with
    [isxdigit]; [pIn[i+1]] is read by [Text2Byte] and skipped by the [i++]
    of the body.  On a last lone character [p[1]] is the terminating NUL;
    [ParseHexLine] never gets there, odd lengths abort before the loop. *)
Fixpoint ParseHexLine_loop (pIn : list Z) (pOut : list Z) : outcome :=
  match pIn with
  | [] => Returned pOut
  | c0 :: tl =>
      if negb (Ctype.isxdigit c0) then Aborted (AbortNotHexDigit c0) pOut
      else match tl with
           | c1 :: tl' => ParseHexLine_loop tl' (pOut ++ [Text2Byte c0 c1])
           | [] => Returned (pOut ++ [Text2Byte c0 0])
           end
  end.

Definition ParseHexLine (pIn : list Z) : outcome :=
  if negb (Nat.land (length pIn) 1 =? 0)%nat then Aborted AbortOddHex []
  else ParseHexLine_loop pIn [].

(** The decoding that the specification describes for hex-literal mode:
    the value of a hexadecimal digit, and the bytes of adjacent pairs. *)
Definition hex_value (c : Z) : Z :=
  if Ctype.isdigit c then c - 48
  else if (97 <=? c) && (c <=? 102) then c - 87
  else c - 55.

Fixpoint decode_pairs (s : list Z) : list Z :=
  match s with
  | hi :: lo :: s' => (16 * hex_value hi + hex_value lo) :: decode_pairs s'
  | _ => []
  end.

(** Two characters that are equal up to the case of a letter [a]-[f]. *)
Definition case_variant (a b : Z) : Prop :=
  a = b ∨ (97 <= a <= 102 ∧ b = a - 32) ∨ (65 <= a <= 70 ∧ b = a + 32).

(** ** [strtol] of <stdlib.h>

    White space, an optional sign, for base 16 an optional [0x] that is
    followed by a hexadecimal digit, then the longest run of digits of the
    base.  The result is the value and the unread rest of the string (the
    end pointer); without any digit the value is 0 and the end pointer is
    the start of the string.  The saturation at [LONG_MAX] is left out:
    [GetPattern] converts three characters at a time. *)
Module Strtol.

Definition digit_value (c : Z) : option Z :=
  if Ctype.isdigit c then Some (c - 48)
  else if (97 <=? c) && (c <=? 122) then Some (c - 97 + 10)
  else if (65 <=? c) && (c <=? 90) then Some (c - 65 + 10)
  else None.

Definition digit_in (base c : Z) : option Z :=
  match digit_value c with
  | Some d => if d <? base then Some d else None
  | None => None
  end.

Fixpoint skip_space (s : list Z) : list Z :=
  match s with
  | c :: s' => if Ctype.isspace c then skip_space s' else s
  | [] => []
  end.

Fixpoint digits (base : Z) (s : list Z) (acc : Z) : Z * list Z :=
  match s with
  | c :: s' =>
      match digit_in base c with
      | Some d => digits base s' (acc * base + d)
      | None => (acc, s)
      end
  | [] => (acc, [])
  end.

Definition skip_sign (s : list Z) : bool * list Z :=
  match s with
  | c :: s' =>
      if c =? 45 then (true, s') else if c =? 43 then (false, s') else (false, s)
  | [] => (false, [])
  end.

Definition skip_0x (base : Z) (s : list Z) : list Z :=
  match s with
  | z :: x :: h :: s' =>
      if (base =? 16) && (z =? 48) && (Ctype.tolower x =? 120)
         && bool_decide (is_Some (digit_in 16 h))
      then h :: s' else s
  | _ => s
  end.

Definition strtol (nptr : list Z) (base : Z) : Z * list Z :=
  let (neg, s) := skip_sign (skip_space nptr) in
  let s := skip_0x base s in
  let (v, pEnd) := digits base s 0 in
  if (length pEnd =? length s)%nat then (0, nptr)
  else (if neg then - v else v, pEnd).

End Strtol.

(** ** Escaped-text mode, wide expansion and their caller *)

Section PatternCompiler.

(** [PAT_BUFSIZ] is defined in [gsar.h]: the size of [SearchBuf] and
    [ReplaceBuf]. *)
Variable PAT_BUFSIZ : nat.

(** The test that ends the body of the [while] loop of [GetPattern]:
    [if (pBuffer - pStart > PAT_BUFSIZ) Abort(...)]. *)
Definition check_length (pBuffer : list Z) (continue : outcome) : outcome :=
  if (PAT_BUFSIZ <? length pBuffer)%nat then Aborted AbortBufferLength pBuffer
  else continue.

(** The conversion of the three characters [number] after a single
    colon: the byte that is stored, and the abort that follows the store
    when [strtol] stopped before the end of [number]. *)
Definition convert_number (c1 c2 c3 : Z) : Z * option abort :=
  if Ctype.tolower c1 =? 120 then
    let (v, pEnd) := Strtol.strtol [48; c2; c3] 16 in
    (v mod 256,
     if negb (length pEnd =? 0)%nat then Some (AbortNotHexNumber [c2; c3])
     else None)
  else
    let (v, pEnd) := Strtol.strtol [c1; c2; c3] 10 in
    (v mod 256,
     if negb (length pEnd =? 0)%nat then Some (AbortNotDecNumber [c1; c2; c3])
     else None).

(** The [while] loop of [GetPattern]: [pArgStr] is the unread input and
    [pBuffer] the bytes stored from [pStart] on. *)
Fixpoint GetPattern_loop (pArgStr : list Z) (pBuffer : list Z) : outcome :=
  match pArgStr with
  | [] => Returned pBuffer
  | c :: rest =>
      if negb (c =? 58) then
        check_length (pBuffer ++ [c]) (GetPattern_loop rest (pBuffer ++ [c]))
      else
        match rest with
        | [] => Aborted AbortSingleColon pBuffer
        | c1 :: rest2 =>
            if c1 =? 58 then
              check_length (pBuffer ++ [c])
                           (GetPattern_loop rest2 (pBuffer ++ [c]))
            else
              match rest2 with
              | c2 :: c3 :: rest4 =>
                  let (byte, failure) := convert_number c1 c2 c3 in
                  let pBuffer := pBuffer ++ [byte] in
                  match failure with
                  | Some a => Aborted a pBuffer
                  | None =>
                      check_length pBuffer (GetPattern_loop rest4 pBuffer)
                  end
              | _ => Aborted AbortSingleColon pBuffer
              end
        end
  end.

Definition GetPattern (pArgStr : list Z) : outcome :=
  GetPattern_loop pArgStr [].

(** The [for] loop of [DoExpansion] with [n] iterations left:
    [pBuf[j++] = TmpBuf[i]; pBuf[j++] = 0;]. *)
Fixpoint DoExpansion_loop (TmpBuf : list Z) (n i j : nat) (pBuf : list Z)
  : list Z :=
  match n with
  | O => pBuf
  | S n' =>
      let pBuf := <[j := default 0 (TmpBuf !! i)]> pBuf in
      let pBuf := <[S j := 0]> pBuf in
      DoExpansion_loop TmpBuf n' (S i) (S (S j)) pBuf
  end.

(** [DoExpansion(pBuf, Len)] on the array [pBuf]: the array afterwards,
    or the abort.  [memcpy] fills [TmpBuf[0..Len-1]]; past the test every
    index of a store is below [PAT_BUFSIZ], the size of the array. *)
Definition DoExpansion (pBuf : list Z) (Len : nat) : abort + list Z :=
  if (PAT_BUFSIZ <? Len * 2)%nat then inl AbortExpanded
  else
    let TmpBuf := take Len pBuf in
    inr (DoExpansion_loop TmpBuf Len 0 0 pBuf).

(** The array [Buf] after a compilation stored [out] from its start. *)
Definition store (out : list Z) (Buf : list Z) : list Z :=
  out ++ drop (length out) Buf.

(** [case 's'] and [case 'r'] of [GetArgs], for an option argument that
    is present: the pattern buffer and the number of items in it. *)
Definition compile_option (fStringAsHex fWideString : bool)
    (pOptArg : list Z) (Buf : list Z) : abort + (list Z * nat) :=
  match (if fStringAsHex then ParseHexLine pOptArg else GetPattern pOptArg) with
  | Aborted a _ => inl a
  | Returned out =>
      let Buf := store out Buf in
      let nItems := length out in
      if fWideString && negb (nItems =? 0)%nat then
        match DoExpansion Buf nItems with
        | inl a => inl a
        | inr Buf => inr (Buf, (nItems * 2)%nat)
        end
      else inr (Buf, nItems)
  end.

End PatternCompiler.

(** ** The process and its environment

    The drivers of [gsar.c] are written as programs over the calls they
    make: the environment (file system, [BMG_SearchReplace] of
    [gsarbmg.c], the user pressing Ctrl-C) answers each call, and a small
    machine runs a program one call at a time, so that every instant
    between two calls is a state one can talk about. *)

Inductive stream : Type := Stdout | Stderr.

(** Arguments of a [printf] format: [%s] and [%ld]. *)
Inductive arg : Type := ArgStr (s : string) | ArgLong (n : Z).

Inductive fmode : Type := RB | WB.

(** What the process did to the outside, oldest first; the value that a
    search-replace pass returned is noted too. *)
Inductive io_event : Type :=
| EvFopen (path : string) (mode : fmode) (ok : bool)
| EvFclose (path : string)
| EvRemove (path : string) (r : Z)
| EvRename (old new : string) (r : Z)
| EvFprintf (to : stream) (fmt : string) (args : list arg)
| EvFflush (to : stream)
| EvSearchReplace (nMatches : Z)
| EvSignalIgnore.

(** The command line flags read by the drivers and by [CtrlBreak]. *)
Record flags : Type := Flags {
  fSearchReplace : bool;
  fForce : bool;
  fFilter : bool
}.

(** The state of the process and of the file system.  [files] holds the
    regular files by path; other kinds of nodes are not modelled, and two
    paths are two files: a second name of a file (a link, another
    spelling of its path) is not modelled.  [files w !! p = None] reads:
    [stat] fails on [p], so [p] is no name of any file.
    [TmpNum] is the static counter of [TmpName]; it starts at -1, where
    the first call of [TmpName] puts it. *)
Record world : Type := World {
  files : gmap string (list Z);
  TmpNum : Z;
  fCriticalPart : bool;
  pOutFile : option string;
  pInputFile : option string;          (* Ctrl.pInputFile *)
  fpMsg : stream;                      (* Ctrl.fpMsg *)
  opts : flags;
  history : list io_event
}.

Definition with_files (f : gmap string (list Z)) (w : world) : world :=
  World f (TmpNum w) (fCriticalPart w) (pOutFile w) (pInputFile w) (fpMsg w)
        (opts w) (history w).
Definition with_TmpNum (n : Z) (w : world) : world :=
  World (files w) n (fCriticalPart w) (pOutFile w) (pInputFile w) (fpMsg w)
        (opts w) (history w).
Definition with_fCriticalPart (b : bool) (w : world) : world :=
  World (files w) (TmpNum w) b (pOutFile w) (pInputFile w) (fpMsg w)
        (opts w) (history w).
Definition with_pOutFile (p : option string) (w : world) : world :=
  World (files w) (TmpNum w) (fCriticalPart w) p (pInputFile w) (fpMsg w)
        (opts w) (history w).
Definition with_pInputFile (p : option string) (w : world) : world :=
  World (files w) (TmpNum w) (fCriticalPart w) (pOutFile w) p (fpMsg w)
        (opts w) (history w).
Definition with_fpMsg (s : stream) (w : world) : world :=
  World (files w) (TmpNum w) (fCriticalPart w) (pOutFile w) (pInputFile w) s
        (opts w) (history w).
Definition log (ev : io_event) (w : world) : world :=
  World (files w) (TmpNum w) (fCriticalPart w) (pOutFile w) (pInputFile w)
        (fpMsg w) (opts w) (history w ++ [ev]).

(** The state in which [main] starts, for a file system and flags. *)
Definition initial (fs : gmap string (list Z)) (o : flags) : world :=
  World fs (-1) false None None Stdout o [].

(** What the environment decides when a call is made: whether the
    operating system lets the call succeed, and what [BMG_SearchReplace]
    (or [BMG_Search]) reports and writes. *)
Record choice : Type := Choice {
  os_ok : bool;
  bmg_count : Z;
  bmg_output : list Z
}.

(** *** [ExtractPathFromFSpec] and [TmpName] *)

Definition IS_PATH_DELIM (c : ascii) : bool :=
  bool_decide (c = "\"%char) || bool_decide (c = ":"%char)
  || bool_decide (c = "/"%char).

Fixpoint has_delim (s : string) : bool :=
  match s with
  | EmptyString => false
  | String c s' => IS_PATH_DELIM c || has_delim s'
  end.

(** The copy of [filespec] cut after its last path delimiter. *)
Fixpoint ExtractPathFromFSpec (filespec : string) : string :=
  match filespec with
  | EmptyString => EmptyString
  | String c s' =>
      if has_delim s' then String c (ExtractPathFromFSpec s')
      else if IS_PATH_DELIM c then String c EmptyString
      else EmptyString
  end.

Definition hex_digit (d : Z) : ascii :=
  Ascii.ascii_of_N (Z.to_N (if d <? 10 then 48 + d else 87 + d)).

Fixpoint hex_of (fuel : nat) (n : Z) (acc : string) : string :=
  match fuel with
  | O => acc
  | S fuel' =>
      let acc := String (hex_digit (n mod 16)) acc in
      if n / 16 =? 0 then acc else hex_of fuel' (n / 16) acc
  end.

Fixpoint zeros (n : nat) (s : string) : string :=
  match n with O => s | S n' => String "0"%char (zeros n' s) end.

(** [sprintf(pDigits, "%04x", TmpNum)] *)
Definition sprintf_04x (n : Z) : string :=
  let s := hex_of 8 n EmptyString in
  zeros (4 - String.length s) s.

Definition SHRT_MAX : Z := 32767.

(** The [for] loop of [TmpName] with [n] tries left; [stat] fails on a
    path exactly when no file has it. *)
Fixpoint TmpName_loop (n : nat) (fs : gmap string (list Z)) (base : string)
    (num : Z) : option string * Z :=
  match n with
  | O => (None, num)
  | S n' =>
      let num := num + 1 in
      let FileSpec := (base +:+ sprintf_04x num) +:+ ".tmp" in
      if bool_decide (fs !! FileSpec = None) then (Some FileSpec, num)
      else TmpName_loop n' fs base num
  end.

Definition TmpName (fs : gmap string (list Z)) (pPath pPrefix : string)
    (num : Z) : option string * Z :=
  TmpName_loop (S (Z.to_nat SHRT_MAX)) fs (pPath +:+ pPrefix) num.

(** *** Calls and their effect *)

Inductive call : Type -> Type :=
| c_stat (path : string) : call bool             (* stat(path, &buf) == 0 *)
| c_fopen (path : string) (mode : fmode) : call bool    (* result != NULL *)
| c_fclose (path : string) : call unit
| c_copy_mode (src dst : string) : call unit     (* stat, chown, chmod *)
| c_remove (path : string) : call Z
| c_rename (old new : string) : call Z
| c_fprintf_msg (fmt : string) (args : list arg) : call unit
| c_fprintf_stderr (fmt : string) (args : list arg) : call unit
| c_fflush_out : call unit
| c_BMG_Search : call Z
| c_BMG_SearchReplace (fpOut : option string) : call Z
| c_TmpName (pPath pPrefix : string) : call (option string)
| c_flags : call flags
| c_get_pOutFile : call (option string)
| c_set_pOutFile (p : option string) : call unit
| c_set_pInputFile (p : option string) : call unit
| c_set_fpMsg (s : stream) : call unit
| c_set_fCriticalPart (v : bool) : call unit.

(** Modelled from the spec: [BMG_Search] and [BMG_SearchReplace] are in
    [gsarbmg.c]; they return the match count, [BMG_SearchReplace] returns
    the write-failure signal -1 instead when a write fails.  The output
    stream of [BMG_SearchReplace] is the file of that path, or [stdout]
    ([None]), which is not kept. *)
Definition bmg_result (e : choice) : Z := Z.max (-1) (bmg_count e).

Definition perform {R : Type} (c : call R) (e : choice) (w : world)
  : R * world :=
  match c in call R return R * world with
  | c_stat p => (bool_decide (is_Some (files w !! p)), w)
  | c_fopen p RB =>
      let ok := os_ok e && bool_decide (is_Some (files w !! p)) in
      (ok, log (EvFopen p RB ok) w)
  | c_fopen p WB =>
      if os_ok e
      then (true, log (EvFopen p WB true) (with_files (<[p := []]> (files w)) w))
      else (false, log (EvFopen p WB false) w)
  | c_fclose p => (tt, log (EvFclose p) w)
  | c_copy_mode _ _ => (tt, w)
  | c_remove p =>
      if os_ok e && bool_decide (is_Some (files w !! p))
      then (0, log (EvRemove p 0) (with_files (delete p (files w)) w))
      else (-1, log (EvRemove p (-1)) w)
  | c_rename old new =>
      match files w !! old with
      | Some data =>
          if os_ok e
          then (0, log (EvRename old new 0)
                       (with_files (<[new := data]> (delete old (files w))) w))
          else (-1, log (EvRename old new (-1)) w)
      | None => (-1, log (EvRename old new (-1)) w)
      end
  | c_fprintf_msg fmt args => (tt, log (EvFprintf (fpMsg w) fmt args) w)
  | c_fprintf_stderr fmt args => (tt, log (EvFprintf Stderr fmt args) w)
  | c_fflush_out => (tt, log (EvFflush Stdout) w)
  | c_BMG_Search => (Z.max 0 (bmg_count e), w)
  | c_BMG_SearchReplace (Some pOut) =>
      (bmg_result e,
       log (EvSearchReplace (bmg_result e))
           (with_files (<[pOut := bmg_output e]> (files w)) w))
  | c_BMG_SearchReplace None =>
      (bmg_result e, log (EvSearchReplace (bmg_result e)) w)
  | c_TmpName pPath pPrefix =>
      let (name, num) := TmpName (files w) pPath pPrefix (TmpNum w) in
      (name, with_TmpNum num w)
  | c_flags => (opts w, w)
  | c_get_pOutFile => (pOutFile w, w)
  | c_set_pOutFile p => (tt, with_pOutFile p w)
  | c_set_pInputFile p => (tt, with_pInputFile p w)
  | c_set_fpMsg s => (tt, with_fpMsg s w)
  | c_set_fCriticalPart v => (tt, with_fCriticalPart v w)
  end.

(** *** Programs *)

Inductive prog (A : Type) : Type :=
| Ret (a : A)
| Exit (status : Z)
| Call {R : Type} (c : call R) (k : R -> prog A).

Arguments Ret {A} a.
Arguments Exit {A} status.
Arguments Call {A R} c k.

Fixpoint bind {A B : Type} (m : prog A) (f : A -> prog B) : prog B :=
  match m with
  | Ret a => f a
  | Exit s => Exit s
  | Call c k => Call c (fun r => bind (k r) f)
  end.

Definition do {R : Type} (c : call R) : prog R := Call c Ret.

#[global] Instance prog_ret : MRet prog := @Ret.
#[global] Instance prog_bind : MBind prog := fun A B f m => bind m f.

Definition EXIT_SUCCESS : Z := 0.
Definition EXIT_FAILURE : Z := 1.

(** [Abort(pMessage, ...)]: three writes to [stderr], then [exit].  The
    format strings are kept as the source writes them. *)
Definition Abort {A : Type} (pMessage : string) (args : list arg) : prog A :=
  do (c_fprintf_stderr "gsar: " []);;
  do (c_fprintf_stderr pMessage args);;
  do (c_fprintf_stderr "\n" []);;
  Exit EXIT_FAILURE.

(** *** The drivers *)

(** [fCheckFile]: every path that [stat] finds is a regular file here, so
    the branch for other kinds of nodes is not taken. *)
Definition fCheckFile (pFileName : string) : prog bool :=
  found ← do (c_stat pFileName);
  if negb found then
    do (c_fprintf_msg "gsar: unable to open input file '%s'\n"
          [ArgStr pFileName]);;
    mret false
  else mret true.

Definition plural (nMatches : Z) : arg :=
  ArgStr (if 1 <? nMatches then "s" else "").

Definition StreamSearchReplace : prog unit :=
  do (c_set_pInputFile (Some "stdin"));;
  do (c_set_fpMsg Stderr);;
  o ← do c_flags;
  if negb (fSearchReplace o) then
    nMatches ← do c_BMG_Search;
    if 0 <? nMatches then
      do (c_fprintf_msg "%s: %ld match%s found\n"
            [ArgStr "stdin"; ArgLong nMatches;
             ArgStr (if nMatches =? 1 then "" else "es")])
    else mret tt
  else
    nMatches ← do (c_BMG_SearchReplace None);
    if nMatches =? -1 then Abort "error in writing file to stdout\n" []
    else if 1 <? nMatches then
      do c_fflush_out;;
      do (c_fprintf_msg "%s: %ld occurrence%s changed\n"
            [ArgStr "stdin"; ArgLong nMatches; plural nMatches])
    else mret tt.

(** The [while] loop that opens [OneSearchReplace]: the first name of the
    list is the input file, the next one the output file unless
    [pOutFile] is set already. *)
Fixpoint pick_files (pFileList : list string) (pIn pOut : option string)
  : option string * option string :=
  match pFileList with
  | [] => (pIn, pOut)
  | f :: rest =>
      match pIn, pOut with
      | None, _ => pick_files rest (Some f) pOut
      | Some _, None => pick_files rest pIn (Some f)
      | Some _, Some _ => pick_files rest pIn pOut
      end
  end.

(** [OneSearchReplace] once both names are known. *)
Definition OneSearchReplace_files (pIn pOut : string) : prog unit :=
  ok ← fCheckFile pIn;
  if negb ok then Exit EXIT_FAILURE else
  fpIn ← do (c_fopen pIn RB);
  if negb fpIn then Abort "error, unable to open input file '%s'" [ArgStr pIn]
  else
  o ← do c_flags;
  found ← do (c_stat pOut);
  if found && negb (fForce o) then
    Abort "error, output file '%s' already exists. Use the 'f' option to force overwrite"
          [ArgStr pOut]
  else
  fpOut ← do (c_fopen pOut WB);
  if negb fpOut then Abort "error, unable to open output file '%s' " [ArgStr pOut]
  else
  nMatches ← do (c_BMG_SearchReplace (Some pOut));
  do (c_fclose pIn);;
  do (c_fclose pOut);;
  do (c_set_fCriticalPart true);;
  (if nMatches =? -1 then
     do (c_fprintf_msg "gsar: error in writing file '%s' - cleaning up\n"
           [ArgStr pOut]);;
     r ← do (c_remove pOut);
     if negb (r =? 0)
     then Abort "error, unable to remove output file '%s'" [ArgStr pOut]
     else Exit EXIT_FAILURE
   else mret tt);;
  (if nMatches =? 0 then
     r ← do (c_remove pOut);
     if negb (r =? 0)
     then Abort "error, unable to remove output file '%s'" [ArgStr pOut]
     else mret tt
   else
     do (c_fprintf_msg "%s: %ld occurrence%s changed\n"
           [ArgStr pIn; ArgLong nMatches; plural nMatches]));;
  do (c_set_pOutFile None);;
  do (c_set_fCriticalPart false).

(** [OneSearchReplace].  A missing name is a [NULL] passed to [stat] and
    [fopen]; that case is cut short to the [exit(EXIT_FAILURE)] it ends
    in. *)
Definition OneSearchReplace (pFileList : list string) : prog unit :=
  do (c_set_fpMsg Stdout);;
  do (c_set_pInputFile None);;
  pOut0 ← do c_get_pOutFile;
  match pick_files pFileList None pOut0 with
  | (Some pIn, Some pOut) =>
      do (c_set_pInputFile (Some pIn));;
      do (c_set_pOutFile (Some pOut));;
      OneSearchReplace_files pIn pOut
  | (pIn, pOut) =>
      do (c_set_pInputFile pIn);;
      do (c_set_pOutFile pOut);;
      Exit EXIT_FAILURE
  end.

(** The body of the [while] loop of [SearchReplace], for one file of the
    list; [continue] is the return of the body. *)
Definition SearchReplace_file (pIn : string) : prog unit :=
  do (c_set_pInputFile (Some pIn));;
  ok ← fCheckFile pIn;
  if negb ok then mret tt else
  fpIn ← do (c_fopen pIn RB);
  if negb fpIn then
    do (c_fprintf_msg "gsar: unable to open input file '%s'\n" [ArgStr pIn])
  else
  let pPath := ExtractPathFromFSpec pIn in
  do (c_set_pOutFile (Some pPath));;
  tmp ← do (c_TmpName pPath "gsr_");
  do (c_set_pOutFile tmp);;
  match tmp with
  | None => Abort "error, unable to create a temporary file name" []
  | Some pOut =>
      fpOut ← do (c_fopen pOut WB);
      if negb fpOut
      then Abort "error, unable to open output file '%s' " [ArgStr pOut]
      else
      do (c_copy_mode pIn pOut);;
      nMatches ← do (c_BMG_SearchReplace (Some pOut));
      do (c_fclose pIn);;
      do (c_fclose pOut);;
      do (c_set_fCriticalPart true);;
      (if nMatches =? -1 then
         do (c_fprintf_msg "gsar: error in writing file '%s' - cleaning up\n"
               [ArgStr pOut]);;
         r ← do (c_remove pOut);
         if negb (r =? 0)
         then Abort "error, unable to remove output file '%s'" [ArgStr pOut]
         else Exit EXIT_FAILURE
       else mret tt);;
      (if nMatches =? 0 then
         r ← do (c_remove pOut);
         if negb (r =? 0)
         then Abort "error, unable to remove output file '%s'" [ArgStr pOut]
         else mret tt
       else
         r ← do (c_remove pIn);
         if negb (r =? 0) then
           do (c_fprintf_msg "gsar: error, unable to remove input file '%s' before rename (read-only ?)"
                 [ArgStr pIn]);;
           r' ← do (c_remove pOut);
           if negb (r' =? 0)
           then Abort "error, unable to remove output file '%s'" [ArgStr pOut]
           else Exit EXIT_FAILURE
         else
         r' ← do (c_rename pOut pIn);
         if negb (r' =? 0)
         then Abort "error, unable to rename file '%s' to '%s'"
                    [ArgStr pOut; ArgStr pIn]
         else
         do (c_fprintf_msg "%s: %ld occurrence%s changed\n"
               [ArgStr pIn; ArgLong nMatches; plural nMatches]));;
      do (c_set_fCriticalPart false)
  end.

Fixpoint SearchReplace_loop (pFileList : list string) : prog unit :=
  match pFileList with
  | [] => mret tt
  | pIn :: rest => SearchReplace_file pIn;; SearchReplace_loop rest
  end.

Definition SearchReplace (pFileList : list string) : prog unit :=
  do (c_set_fpMsg Stdout);;
  SearchReplace_loop pFileList.

(** [CtrlBreak], the handler of [SIGINT]: the state it leaves, and the
    exit status unless it returns. *)
Definition CtrlBreak (e : choice) (w : world) : world * option Z :=
  if fCriticalPart w then (w, None)
  else
    let w := log EvSignalIgnore w in
    let w :=
      match pOutFile w with
      | Some p =>
          if fSearchReplace (opts w) && negb (fFilter (opts w))
          then (perform (c_remove p) e w).2
          else w
      | None => w
      end in
    (w, Some EXIT_FAILURE).

(** *** Running a program

    An instant of the run is a state of the world with the rest of the
    program.  At each instant either the program makes its next call, or
    the signal arrives and [CtrlBreak] runs. *)
Inductive event : Type := Step (e : choice) | Sigint (e : choice).

Definition config : Type := world * prog unit.

Definition step (ev : event) (c : config) : config :=
  match c.2 with
  | Call cl k =>
      match ev with
      | Step e => let (r, w) := perform cl e c.1 in (w, k r)
      | Sigint e =>
          match CtrlBreak e c.1 with
          | (w, None) => (w, c.2)
          | (w, Some status) => (w, Exit status)
          end
      end
  | _ => c
  end.

Definition run (evs : list event) (c : config) : config :=
  fold_left (fun c ev => step ev c) evs c.

(** A program that has not come to its end nor to [exit]. *)
Definition running {A : Type} (p : prog A) : bool :=
  match p with Call _ _ => true | _ => false end.

(** The next call of the program is [remove(path)]. *)
Definition about_to_remove {A : Type} (path : string) (p : prog A) : bool :=
  match p with
  | Call c _ =>
      match c with
      | c_remove q => bool_decide (q = path)
      | _ => false
      end
  | _ => false
  end.

Definition is_rename (ev : io_event) : bool :=
  match ev with EvRename _ _ _ => true | _ => false end.

(** A property of every instant of every run from a state. *)
Definition always (P : config -> Prop) (c : config) : Prop :=
  ∀ evs, P (run evs c).

(** ** Vocabulary of the properties *)

(** The characters that [isxdigit] and [isdigit] accept. *)
Definition xdigit_chars : list Z :=
  [48;49;50;51;52;53;54;55;56;57;65;66;67;68;69;70;97;98;99;100;101;102].

Definition digit_chars : list Z := [48;49;50;51;52;53;54;55;56;57].

(** The number that three decimal digits write. *)
Definition decimal_value (d1 d2 d3 : Z) : Z :=
  100 * (d1 - 48) + 10 * (d2 - 48) + (d3 - 48).

(** [convert_number] on three digits stores their number modulo 256 and
    does not fail: the test that is run over all digits. *)
Definition decimal_ok (d1 d2 d3 : Z) : bool :=
  match convert_number d1 d2 d3 with
  | (byte, None) => byte =? decimal_value d1 d2 d3 mod 256
  | (_, Some _) => false
  end.

(** The program has come to its end (not to [exit]). *)
Definition returned {A : Type} (p : prog A) : bool :=
  match p with Ret _ => true | _ => false end.

(** No [rename] was called. *)
Definition no_rename (w : world) : Prop :=
  ∀ ev, ev ∈ history w -> is_rename ev = false.




(** The instants of the commit of [pIn]: the program is running and either
    its next call removes [pIn], or [pIn] has been removed and no rename
    onto [pIn] has succeeded yet. *)
Definition in_commit (pIn : string) (c : config) : Prop :=
  running c.2 = true
  ∧ (about_to_remove pIn c.2 = true
     ∨ (EvRemove pIn 0 ∈ history c.1
        ∧ ∀ tmp, EvRename tmp pIn 0 ∉ history c.1)).

Definition commit_is_critical (pIn : string) (c : config) : Prop :=
  in_commit pIn c -> fCriticalPart c.1 = true.

(** A file of the current state that the run has made: it was not there
    in [fs0]. *)
Definition made (fs0 : gmap string (list Z)) (w : world) (f : string) : Prop :=
  is_Some (files w !! f) ∧ fs0 !! f = None.

(** What holds of the temporary file of in-place mode at every instant:
    the only file made is the one [pOutFile] names; while it exists and
    the critical flag is clear, [pIn] is as it was; [pIn] differs from
    what it was, with the file made still there, only under the critical
    flag, after [pIn] was removed; and no file made is left when the body
    of the loop returns. *)
Definition temp_invariant (fs0 : gmap string (list Z)) (pIn : string)
    (c : config) : Prop :=
  (∀ f, made fs0 c.1 f -> pOutFile c.1 = Some f)
  ∧ (∀ f, made fs0 c.1 f -> fCriticalPart c.1 = false ->
          files c.1 !! pIn = fs0 !! pIn)
  ∧ (∀ f, made fs0 c.1 f -> files c.1 !! pIn ≠ fs0 !! pIn ->
          fCriticalPart c.1 = true ∧ EvRemove pIn 0 ∈ history c.1
          ∧ files c.1 !! pIn = None)
  ∧ (returned c.2 = true -> ∀ f, ¬ made fs0 c.1 f).

(** A small world for examples: one file, replace mode on files. *)
Definition example_files : gmap string (list Z) := {[ "a.txt" := [1; 2; 3] ]}.

Definition example_flags : flags := Flags true false false.

Definition example_world : world := initial example_files example_flags.

(** The environment lets every call succeed; the pass reports [n] matches
    and writes [9]. *)
Definition reports (n : Z) : choice := Choice true n [9].

(** The instant of the example at which in-place mode has removed the
    input file and has not yet renamed the temporary file. *)
Definition instant_after_delete : config :=
  run (repeat (Step (reports 2)) 14) (example_world, SearchReplace ["a.txt"]).

(** The summary line of filter mode. *)
Definition summary (nMatches : Z) : io_event :=
  EvFprintf Stderr "%s: %ld occurrence%s changed\n"
    [ArgStr "stdin"; ArgLong nMatches; plural nMatches].


(** ** Vocabulary of the further properties

    [DumpBuffer],
    the forms of the escapes, [FileSearch], and what the drivers leave. *)

(** ** More of the pattern compiler *)

(** [isprint] of <ctype.h> in the "C" locale. *)
Definition isprint (c : Z) : bool := (32 <=? c) && (c <=? 126).

(** [sprintf("%02x", b)] for an [unsigned char]. *)
Definition sprintf_02x (b : Z) : string :=
  let s := hex_of 8 b EmptyString in
  zeros (2 - String.length s) s.

(** The two loops of [DumpBuffer], over the [nItem] bytes left to print:
    what they write to [Ctrl.fpMsg]. *)
Fixpoint DumpBuffer_text (nItem : nat) (pBuffer : list Z) : list Z :=
  match nItem, pBuffer with
  | S n, c :: rest => (if isprint c then c else 46) :: DumpBuffer_text n rest
  | _, _ => []
  end.

Fixpoint DumpBuffer_hex (nItem : nat) (pBuffer : list Z) : list Z :=
  match nItem, pBuffer with
  | S n, c :: rest => cstr (sprintf_02x c) ++ [32] ++ DumpBuffer_hex n rest
  | _, _ => []
  end.

(** [DumpBuffer(pBuffer, nItem, Base)]: the characters written to
    [Ctrl.fpMsg]; [pBuffer] holds at least [nItem] bytes.  [Base] is an
    [unsigned char]: the value that the caller passes is taken modulo
    256, and that is what [!Base] tests. *)
Definition DumpBuffer (pBuffer : list Z) (nItem : nat) (Base : Z) : list Z :=
  (if Base mod 256 =? 0 then DumpBuffer_text nItem pBuffer
   else DumpBuffer_hex nItem pBuffer) ++ [10].

(** The digits of a hexadecimal dump: the dump without its blanks and
    its new line. *)
Definition dump_digits (out : list Z) : list Z :=
  filter (λ c, c ≠ 32 ∧ c ≠ 10) out.

(** A byte string written as an escaped-text specification: every colon
    doubled. *)
Definition escape_colons (s : list Z) : list Z :=
  flat_map (λ c, if c =? 58 then [58; 58] else [c]) s.

(** A buffer with a zero after every byte. *)
Definition interleave_zero (s : list Z) : list Z :=
  flat_map (λ c, [c; 0]) s.

Definition is_byte (c : Z) : bool := (0 <=? c) && (c <? 256).

Definition bytes : list Z := seqZ 0 256.

(** [sprintf_02x] writes two hexadecimal digits that [Text2Byte] reads
    back: the test that is run over all bytes. *)
Definition dump_pair_ok (b : Z) : bool :=
  match cstr (sprintf_02x b) with
  | [hi; lo] =>
      Ctype.isxdigit hi && Ctype.isxdigit lo && (Text2Byte hi lo =? b)
      && negb (hi =? 32) && negb (hi =? 10) && negb (lo =? 32) && negb (lo =? 10)
  | _ => false
  end.

(** The three characters of an [x] escape that [strtol] reads to the end:
    two hexadecimal digits, or a second [x] and one hexadecimal digit. *)
Definition hex_escape_form (c2 c3 : Z) : bool :=
  (Ctype.isxdigit c2 || (Ctype.tolower c2 =? 120)) && Ctype.isxdigit c3.

Definition hex_escape_value (c2 c3 : Z) : Z :=
  if Ctype.tolower c2 =? 120 then hex_value c3
  else 16 * hex_value c2 + hex_value c3.

Definition hex_escape_ok (c2 c3 : Z) : bool :=
  match convert_number 120 c2 c3 with
  | (byte, None) => hex_escape_form c2 c3 && (byte =? hex_escape_value c2 c3)
  | (_, Some (AbortNotHexNumber number)) =>
      negb (hex_escape_form c2 c3) && bool_decide (number = [c2; c3])
  | (_, Some _) => false
  end.

(** The forms of three characters that [strtol] reads to the end in base
    10: digits after optional white space and an optional sign. *)
Definition is_sign (c : Z) : bool := (c =? 45) || (c =? 43).

Definition decimal_form (c1 c2 c3 : Z) : bool :=
  Ctype.isdigit c3
  && ((Ctype.isdigit c1 && Ctype.isdigit c2)
      || ((Ctype.isspace c1 || is_sign c1) && Ctype.isdigit c2)
      || (Ctype.isspace c1 && (Ctype.isspace c2 || is_sign c2))).

(** The number that such a form writes. *)
Definition decimal_escape_value (c1 c2 c3 : Z) : Z :=
  if Ctype.isdigit c1 then decimal_value c1 c2 c3
  else if Ctype.isdigit c2 then
    (if c1 =? 45 then - (10 * (c2 - 48) + (c3 - 48))
     else 10 * (c2 - 48) + (c3 - 48))
  else (if c2 =? 45 then - (c3 - 48) else c3 - 48).

(** ** More of the temporary file name *)

(** The name that [TmpName] tries when its counter is [k]. *)
Definition candidate (pPath pPrefix : string) (k : Z) : string :=
  ((pPath +:+ pPrefix) +:+ sprintf_04x k) +:+ ".tmp".

(** The loop of [ExtractPathFromFSpec] as the source writes it: [p] goes
    back from the end of the string while it is not at the start and the
    character before it is no path delimiter; the string is cut at [p]. *)
Definition char_at (s : string) (i : nat) : ascii :=
  default "000"%char (String.get i s).

Fixpoint scan_back (s : string) (p : nat) : nat :=
  match p with
  | O => O
  | S p' => if IS_PATH_DELIM (char_at s p') then p else scan_back s p'
  end.

Definition ExtractPath_scan (filespec : string) : string :=
  String.substring 0 (scan_back filespec (String.length filespec)) filespec.

(** A path that ends in a path delimiter. *)
Definition ends_in_delim (path : string) : Prop :=
  ∃ dir c, path = dir +:+ String c EmptyString ∧ IS_PATH_DELIM c = true.

(** ** [FileSearch] *)

(** The body of the [while] loop of [FileSearch], for one file of the
    list; [continue] is the return of the body. *)
Definition FileSearch_file (pIn : string) : prog unit :=
  do (c_set_pInputFile (Some pIn));;
  ok ← fCheckFile pIn;
  if negb ok then mret tt else
  fpIn ← do (c_fopen pIn RB);
  if negb fpIn then
    do (c_fprintf_msg "gsar: unable to open input file '%s'\n" [ArgStr pIn])
  else
  do (c_set_fpMsg Stdout);;
  nMatches ← do c_BMG_Search;
  do (c_fclose pIn);;
  if 0 <? nMatches then
    do (c_fprintf_msg "%s: %ld match%s found\n"
          [ArgStr pIn; ArgLong nMatches;
           ArgStr (if nMatches =? 1 then "" else "es")])
  else mret tt.

Fixpoint FileSearch (pFileList : list string) : prog unit :=
  match pFileList with
  | [] => mret tt
  | pIn :: rest => FileSearch_file pIn;; FileSearch rest
  end.

(** ** More vocabulary of the drivers *)

(** The program has come to [exit]. *)
Definition exited {A : Type} (p : prog A) : bool :=
  match p with Exit _ => true | _ => false end.

(** [CtrlBreak] has not run to its [exit]. *)
Definition quiet (w : world) : Prop := EvSignalIgnore ∉ history w.

(** The files are those of [w0], the flags too, and the program is at
    [exit] only when [CtrlBreak] has put it there. *)
Definition search_only (w0 : world) (c : config) : Prop :=
  files c.1 = files w0 ∧ opts c.1 = opts w0
  ∧ (quiet w0 ->
     if exited c.2 then EvSignalIgnore ∈ history c.1 else quiet c.1).

(** The file that [CtrlBreak] would remove is not there. *)
Definition clean (w : world) : Prop :=
  ∀ p, pOutFile w = Some p -> files w !! p = None.

(** The files of [fs0] other than [pIn] are as they were; once the body
    has returned, the files are those that were there at the start. *)
Definition frame (fs0 : gmap string (list Z)) (pIn : string) (c : config)
  : Prop :=
  (∀ f, f ≠ pIn -> is_Some (fs0 !! f) -> files c.1 !! f = fs0 !! f)
  ∧ (returned c.2 = true ->
     clean c.1 ∧ ∀ f, is_Some (files c.1 !! f) ↔ is_Some (fs0 !! f)).

(** The same for a list of input files. *)
Definition untouched (fs0 : gmap string (list Z)) (l : list string)
    (c : config) : Prop :=
  (∀ f, f ∉ l -> is_Some (fs0 !! f) -> files c.1 !! f = fs0 !! f)
  ∧ (returned c.2 = true ->
     clean c.1 ∧ ∀ f, is_Some (files c.1 !! f) ↔ is_Some (fs0 !! f)).

(** After a pass that reported the write failure: no rename, the input
    file as it was in [fs0], and the driver does not return. *)
Definition write_failure_safe (fs0 : gmap string (list Z)) (pIn : string)
    (c : config) : Prop :=
  EvSearchReplace (-1) ∈ history c.1 ->
  no_rename c.1 ∧ files c.1 !! pIn = fs0 !! pIn ∧ returned c.2 = false.

(** No pass was run. *)
Definition no_pass_yet (w : world) : Prop :=
  ∀ n, EvSearchReplace n ∉ history w.

(** Explicit-output mode that finds its output file there, without the
    force flag: unless [CtrlBreak] has run, the files are those of [fs0],
    no pass was run, and the driver does not return. *)
Definition refuses (fs0 : gmap string (list Z)) (c : config) : Prop :=
  returned c.2 = false
  ∧ (quiet c.1 -> files c.1 = fs0 ∧ no_pass_yet c.1).

(** Filter mode: the files are those of [fs0] and every message went to
    [stderr]. *)
Definition filter_only (fs0 : gmap string (list Z)) (c : config) : Prop :=
  files c.1 = fs0
  ∧ ∀ to fmt args, EvFprintf to fmt args ∈ history c.1 -> to = Stderr.

(** The body of the loop of [SearchReplace] has returned with the input
    file replaced by [data]; [tmp] was the temporary file. *)
Definition committed (fs0 : gmap string (list Z)) (pIn : string)
    (data : list Z) (tmp : string) (c : config) : Prop :=
  c.2 = Ret tt
  ∧ files c.1 = <[pIn := data]> fs0
  ∧ pOutFile c.1 = Some tmp ∧ fCriticalPart c.1 = false.

(** [CtrlBreak] has ended the process and removed [pOut]. *)
Definition output_lost (fs0 : gmap string (list Z)) (pOut : string)
    (c : config) : Prop :=
  c.2 = Exit EXIT_FAILURE ∧ files c.1 = delete pOut fs0.

(** ** More vocabulary of hex-literal mode *)

(** The characters at the even indices of the string (counted from 0),
    and the bytes that [Text2Byte] makes of its adjacent pairs. *)
Fixpoint high_chars (s : list Z) : list Z :=
  match s with
  | hi :: _ :: s' => hi :: high_chars s'
  | [hi] => [hi]
  | [] => []
  end.

Fixpoint raw_pairs (s : list Z) : list Z :=
  match s with
  | hi :: lo :: s' => Text2Byte hi lo :: raw_pairs s'
  | _ => []
  end.

(** Two files, for examples. *)
Definition example_pair : gmap string (list Z) :=
  {[ "a.txt" := [1; 2; 3]; "b.txt" := [4] ]}.

(** [OneSearchReplace] has returned with the output file holding [data]
    and [pOutFile] reset. *)
Definition output_written (fs0 : gmap string (list Z)) (pOut : string)
    (data : list Z) (c : config) : Prop :=
  c.2 = Ret tt
  ∧ files c.1 = <[pOut := data]> fs0
  ∧ pOutFile c.1 = None ∧ fCriticalPart c.1 = false.

(** * Properties of the pattern compiler *)

Section ListPairs.
Context {A : Type}.

Lemma list_pair_ind (P : list A -> Prop) :
  P [] -> (∀ a, P [a]) -> (∀ a b l, P l -> P (a :: b :: l)) -> ∀ l, P l.
Proof.
  intros H0 H1 H2 l.
  assert (H : P l ∧ ∀ a, P (a :: l)).
  { induction l as [|b l [IHl IHl']]; split; auto. }
  apply H.
Qed.
End ListPairs.

(** ** Hex-literal mode *)

Lemma land_1_even (n : nat) : (Nat.land n 1 =? 0)%nat = Nat.even n.
Proof.
  change 1%nat with (Nat.ones 1). rewrite Nat.land_ones. simpl (2 ^ 1)%nat.
  destruct (Nat.even n) eqn:E.
  - apply Nat.eqb_eq. apply Nat.even_spec in E. destruct E as [k ->].
    rewrite Nat.mul_comm. apply Nat.Div0.mod_mul.
  - apply Nat.eqb_neq. intros H. apply Nat.Div0.mod_divides in H.
    destruct H as [k ->]. rewrite Nat.even_mul in E. discriminate.
Qed.

Lemma isxdigit_cases c :
  Ctype.isxdigit c = true ->
  In c [48;49;50;51;52;53;54;55;56;57;65;66;67;68;69;70;97;98;99;100;101;102].
Proof. unfold Ctype.isxdigit, Ctype.isdigit. cbn [In]. lia. Qed.

Lemma Text2Byte_hex_all :
  forallb (λ c, forallb (λ d, Text2Byte c d =? 16 * hex_value c + hex_value d)
                        xdigit_chars) xdigit_chars = true.
Proof. vm_compute. reflexivity. Qed.

Lemma Text2Byte_hex c d :
  Ctype.isxdigit c = true -> Ctype.isxdigit d = true ->
  Text2Byte c d = 16 * hex_value c + hex_value d.
Proof.
  intros Hc%isxdigit_cases Hd%isxdigit_cases.
  pose proof Text2Byte_hex_all as H.
  rewrite forallb_forall in H. specialize (H c Hc).
  rewrite forallb_forall in H. specialize (H d Hd).
  by apply Z.eqb_eq in H.
Qed.

Lemma ParseHexLine_loop_hex s : ∀ pOut,
  Nat.even (length s) = true -> Forall (λ c, Ctype.isxdigit c = true) s ->
  ParseHexLine_loop s pOut = Returned (pOut ++ decode_pairs s).
Proof.
  induction s as [|a|a b s IH] using list_pair_ind; intros pOut Hev Hx.
  - simpl. by rewrite app_nil_r.
  - discriminate.
  - inversion Hx as [|? ? Ha Hx']; subst. inversion Hx' as [|? ? Hb Hx'']; subst.
    cbn [ParseHexLine_loop]. rewrite Ha. cbn [negb].
    rewrite IH by done. rewrite Text2Byte_hex by done.
    cbn [decode_pairs]. by rewrite <- app_assoc.
Qed.

Lemma decode_pairs_length s :
  Nat.even (length s) = true -> length (decode_pairs s) = (length s / 2)%nat.
Proof.
  induction s as [|a|a b s IH] using list_pair_ind; intros Hev; try done.
  cbn [decode_pairs length]. rewrite IH by done.
  change (S (S (length s))) with (1 * 2 + length s)%nat.
  rewrite Nat.div_add_l by lia. lia.
Qed.

(** Hex-literal mode on well-formed input: an even number of hexadecimal
    digits decodes pair by pair, in order. *)
Lemma ParseHexLine_hex s :
  Nat.even (length s) = true -> Forall (λ c, Ctype.isxdigit c = true) s ->
  ParseHexLine s = Returned (decode_pairs s)
  ∧ length (decode_pairs s) = (length s / 2)%nat.
Proof.
  intros Hev Hx. split; [|by apply decode_pairs_length].
  unfold ParseHexLine. rewrite land_1_even, Hev. cbn [negb].
  by rewrite ParseHexLine_loop_hex.
Qed.

(** Hex-literal mode on a string of odd length. *)
Lemma ParseHexLine_odd s :
  Nat.odd (length s) = true -> ParseHexLine s = Aborted AbortOddHex [].
Proof.
  intros Hodd. unfold ParseHexLine. rewrite land_1_even.
  rewrite <- Nat.negb_odd, Hodd. done.
Qed.

(** A character that is no hexadecimal digit at an even index (counted
    from 0) aborts, and the message names it. *)
Lemma ParseHexLine_bad_high s c s' :
  Nat.even (length s) = true -> Forall (λ c, Ctype.isxdigit c = true) s ->
  Nat.odd (length s') = true ->
  Ctype.isxdigit c = false ->
  ParseHexLine (s ++ c :: s') = Aborted (AbortNotHexDigit c) (decode_pairs s).
Proof.
  intros Hev Hx Hodd Hc. unfold ParseHexLine. rewrite land_1_even.
  rewrite length_app. cbn [length]. rewrite Nat.even_add, Hev, Nat.even_succ, Hodd.
  cbn [negb eqb].
  assert (H : ∀ pOut, ParseHexLine_loop (s ++ c :: s') pOut
                      = Aborted (AbortNotHexDigit c) (pOut ++ decode_pairs s)).
  { clear Hodd. induction s as [|a|a b s IH] using list_pair_ind; intros pOut.
    - cbn. rewrite Hc. cbn. by rewrite app_nil_r.
    - discriminate.
    - inversion Hx as [|? ? Ha Hx']; subst. inversion Hx' as [|? ? Hb Hx'']; subst.
      cbn [app ParseHexLine_loop]. rewrite Ha. cbn [negb].
      rewrite IH by done. cbn [decode_pairs]. rewrite Text2Byte_hex by done.
      by rewrite <- app_assoc. }
  apply H.
Qed.

(** A character at an odd index is never tested: after a hexadecimal
    digit, any character at all is decoded. *)
Lemma ParseHexLine_low_unchecked c d :
  Ctype.isxdigit c = true -> ParseHexLine [c; d] = Returned [Text2Byte c d].
Proof. intros Hc. unfold ParseHexLine. cbn. by rewrite Hc. Qed.

(** C1 (hex-literal mode decodes digit pairs and fails on an odd length or
    on a character that is no hexadecimal digit).  The code does not do
    the last part: on the two characters "2G" [ParseHexLine] returns the
    one byte 0x20, although 'G' is no hexadecimal digit.  Only characters
    at even indices are tested ([ParseHexLine_low_unchecked]); the other
    parts of the claim hold ([ParseHexLine_hex], [ParseHexLine_odd],
    [ParseHexLine_bad_high]). *)
Theorem ParseHexLine_accepts_2G :
  ParseHexLine (cstr "2G") = Returned [32]
  ∧ Ctype.isxdigit 71 = false
  ∧ ¬ fails_with (ParseHexLine (cstr "2G")) MalformedPattern.
Proof.
  split; [reflexivity|]. split; [reflexivity|].
  intros (a & written & H & _). discriminate H.
Qed.

Lemma case_variant_toupper a b :
  case_variant a b -> Ctype.toupper a = Ctype.toupper b.
Proof. unfold case_variant, Ctype.toupper. intros H. repeat case_match; lia. Qed.

Lemma toupper_isxdigit a b :
  case_variant a b -> Ctype.isxdigit a = Ctype.isxdigit b.
Proof.
  unfold case_variant, Ctype.isxdigit, Ctype.isdigit. lia.
Qed.

Lemma toupper_Text2Byte a b a' b' :
  case_variant a a' -> case_variant b b' -> Text2Byte a b = Text2Byte a' b'.
Proof.
  intros Ha%case_variant_toupper Hb%case_variant_toupper.
  unfold Text2Byte. by rewrite Ha, Hb.
Qed.

Lemma ParseHexLine_loop_variant s t :
  Forall2 case_variant s t -> Forall (λ c, Ctype.isxdigit c = true) s ->
  ∀ pOut, ParseHexLine_loop s pOut = ParseHexLine_loop t pOut.
Proof.
  revert t. induction s as [|a|a b s IH] using list_pair_ind; intros t H2 Hx pOut.
  - by inversion H2.
  - inversion H2 as [|? a' ? ? Ha H2']; subst. inversion H2'; subst.
    inversion Hx as [|? ? Hxa _]; subst. cbn.
    rewrite <- (toupper_isxdigit a a') by done. rewrite Hxa. cbn.
    by rewrite (toupper_Text2Byte a 0 a' 0) by (done || by left).
  - inversion H2 as [|? a' ? t' Ha H2']; subst.
    inversion H2' as [|? b' ? t'' Hb H2'']; subst.
    inversion Hx as [|? ? Hxa Hx']; subst. inversion Hx' as [|? ? Hxb Hx'']; subst.
    cbn [ParseHexLine_loop].
    rewrite <- (toupper_isxdigit a a') by done. rewrite Hxa. cbn [negb].
    rewrite (toupper_Text2Byte a b a' b') by done. by apply IH.
Qed.

(** C10 (hex-literal compilation does not depend on the case of the
    digits): a specification of an even number of hexadecimal digits and
    any variant of it that changes the case of letters a-f compile to the
    same bytes, the bytes of the digit pairs. *)
Theorem ParseHexLine_case_insensitive s t :
  Nat.even (length s) = true ->
  Forall (λ c, Ctype.isxdigit c = true) s ->
  Forall2 case_variant s t ->
  ∃ out, ParseHexLine s = Returned out ∧ ParseHexLine t = Returned out
         ∧ out = decode_pairs s.
Proof.
  intros Hev Hx H2. exists (decode_pairs s).
  destruct (ParseHexLine_hex s Hev Hx) as [Hs _]. split; [done|]. split; [|done].
  rewrite <- Hs. unfold ParseHexLine.
  rewrite <- (Forall2_length _ _ _ H2).
  destruct (negb _); [done|]. symmetry. by apply ParseHexLine_loop_variant.
Qed.

Lemma ParseHexLine_case_insensitive_witness :
  ParseHexLine (cstr "2f") = Returned [47] ∧ ParseHexLine (cstr "2F") = Returned [47].
Proof.
  destruct (ParseHexLine_case_insensitive (cstr "2f") (cstr "2F")) as (out & H1 & H2 & H3).
  - reflexivity.
  - repeat constructor.
  - change (Forall2 case_variant [50; 102] [50; 70]).
    repeat (constructor; [unfold case_variant; lia|]). constructor.
  - subst out. split; [exact H1 | exact H2].
Defined.

(** ** Escaped-text mode *)

Lemma isdigit_cases c : Ctype.isdigit c = true -> In c digit_chars.
Proof. unfold Ctype.isdigit, digit_chars. cbn [In]. lia. Qed.

Lemma decimal_ok_all :
  forallb (λ d1, forallb (λ d2, forallb (decimal_ok d1 d2) digit_chars)
                         digit_chars) digit_chars = true.
Proof. vm_compute. reflexivity. Qed.

Lemma convert_number_decimal d1 d2 d3 :
  Ctype.isdigit d1 = true -> Ctype.isdigit d2 = true -> Ctype.isdigit d3 = true ->
  convert_number d1 d2 d3 = (decimal_value d1 d2 d3 mod 256, None).
Proof.
  intros H1%isdigit_cases H2%isdigit_cases H3%isdigit_cases.
  pose proof decimal_ok_all as H.
  rewrite forallb_forall in H. specialize (H d1 H1).
  rewrite forallb_forall in H. specialize (H d2 H2).
  rewrite forallb_forall in H. specialize (H d3 H3).
  unfold decimal_ok in H. destruct (convert_number d1 d2 d3) as [byte [a|]].
  - discriminate.
  - apply Z.eqb_eq in H. by subst.
Qed.

Section CompilerFacts.
Variable PAT_BUFSIZ : nat.

Lemma check_length_fits buf cont :
  (length buf <= PAT_BUFSIZ)%nat -> check_length PAT_BUFSIZ buf cont = cont.
Proof.
  intros H. unfold check_length.
  destruct (Nat.ltb_spec PAT_BUFSIZ (length buf)); [lia | done].
Qed.

Lemma check_length_over buf cont :
  (PAT_BUFSIZ < length buf)%nat -> check_length PAT_BUFSIZ buf cont = Aborted AbortBufferLength buf.
Proof.
  intros H. unfold check_length.
  destruct (Nat.ltb_spec PAT_BUFSIZ (length buf)); [done | lia].
Qed.

Lemma check_length_Returned buf cont out :
  check_length PAT_BUFSIZ buf cont = Returned out ->
  cont = Returned out ∧ (length buf <= PAT_BUFSIZ)%nat.
Proof.
  unfold check_length.
  destruct (Nat.ltb_spec PAT_BUFSIZ (length buf)); [discriminate | done].
Qed.

(** The equations of the GetPattern_loop PAT_BUFSIZ, one per form of the input. *)
Lemma loop_plain c rest acc :
  c ≠ 58 -> GetPattern_loop PAT_BUFSIZ (c :: rest) acc = check_length PAT_BUFSIZ (acc ++ [c]) (GetPattern_loop PAT_BUFSIZ rest (acc ++ [c])).
Proof. intros Hc. cbn [GetPattern_loop]. by destruct (Z.eqb_spec c 58). Qed.

Lemma loop_marker_pair rest acc :
  GetPattern_loop PAT_BUFSIZ (58 :: 58 :: rest) acc = check_length PAT_BUFSIZ (acc ++ [58]) (GetPattern_loop PAT_BUFSIZ rest (acc ++ [58])).
Proof. reflexivity. Qed.

Lemma loop_escape c1 c2 c3 rest acc :
  c1 ≠ 58 ->
  GetPattern_loop PAT_BUFSIZ (58 :: c1 :: c2 :: c3 :: rest) acc =
    match (convert_number c1 c2 c3).2 with
    | Some a => Aborted a (acc ++ [(convert_number c1 c2 c3).1])
    | None => check_length PAT_BUFSIZ (acc ++ [(convert_number c1 c2 c3).1])
                    (GetPattern_loop PAT_BUFSIZ rest (acc ++ [(convert_number c1 c2 c3).1]))
    end.
Proof.
  intros Hc. cbn [GetPattern_loop]. cbn [Z.eqb Pos.eqb negb].
  destruct (Z.eqb_spec c1 58); [done|].
  by destruct (convert_number c1 c2 c3).
Qed.

Lemma loop_marker_short suf acc :
  (length suf < 3)%nat -> head suf ≠ Some 58 ->
  GetPattern_loop PAT_BUFSIZ (58 :: suf) acc = Aborted AbortSingleColon acc.
Proof.
  intros Hlen Hhd. destruct suf as [|c1 [|c2 [|c3 suf]]]; cbn in Hlen; try lia.
  - reflexivity.
  - cbn. destruct (Z.eqb_spec c1 58); [by subst|done].
  - cbn. destruct (Z.eqb_spec c1 58); [by subst|done].
Qed.

(** The GetPattern_loop PAT_BUFSIZ reads its input from left to right: what it does on a
    prefix that it decodes, it does again when more input follows. *)
Lemma loop_app pre : ∀ acc out rest,
  GetPattern_loop PAT_BUFSIZ pre acc = Returned out -> GetPattern_loop PAT_BUFSIZ (pre ++ rest) acc = GetPattern_loop PAT_BUFSIZ rest out.
Proof.
  induction pre as [pre IH] using (induction_ltof1 _ (@length Z)).
  unfold ltof in IH. intros acc out rest H.
  destruct pre as [|c pre]; [by injection H as ->|].
  destruct (decide (c = 58)) as [->|Hc].
  - destruct pre as [|c1 pre]; [discriminate H|].
    destruct (decide (c1 = 58)) as [->|Hc1].
    + rewrite loop_marker_pair in H. apply check_length_Returned in H as [H Hlen].
      cbn [app]. rewrite loop_marker_pair, check_length_fits by done.
      apply IH; [cbn; lia | done].
    + destruct pre as [|c2 [|c3 pre]].
      * rewrite loop_marker_short in H; [discriminate | cbn; lia | by intros [=]].
      * rewrite loop_marker_short in H; [discriminate | cbn; lia | by intros [=]].
      * rewrite loop_escape in H by done. cbn [app]. rewrite loop_escape by done.
        destruct (convert_number c1 c2 c3).2; [discriminate|].
        apply check_length_Returned in H as [H Hlen].
        rewrite check_length_fits by done. apply IH; [cbn; lia | done].
  - rewrite loop_plain in H by done. apply check_length_Returned in H as [H Hlen].
    cbn [app]. rewrite loop_plain, check_length_fits by done.
    apply IH; [cbn; lia | done].
Qed.

(** What the GetPattern_loop PAT_BUFSIZ has stored never exceeds the buffer by more than the
    one byte that the test at the end of the GetPattern_loop PAT_BUFSIZ body comes after. *)
Lemma loop_stored_bound s : ∀ acc,
  (length acc <= PAT_BUFSIZ)%nat ->
  match GetPattern_loop PAT_BUFSIZ s acc with
  | Returned out => (length out <= PAT_BUFSIZ)%nat
  | Aborted _ written => (length written <= S PAT_BUFSIZ)%nat
  end.
Proof.
  induction s as [s IH] using (induction_ltof1 _ (@length Z)).
  unfold ltof in IH. intros acc Hacc.
  assert (Hcheck : ∀ b rest, (length rest < length s)%nat ->
    match check_length PAT_BUFSIZ (acc ++ [b]) (GetPattern_loop PAT_BUFSIZ rest (acc ++ [b])) with
    | Returned out => (length out <= PAT_BUFSIZ)%nat
    | Aborted _ written => (length written <= S PAT_BUFSIZ)%nat
    end).
  { intros b rest Hrest. unfold check_length.
    destruct (Nat.ltb_spec PAT_BUFSIZ (length (acc ++ [b]))) as [Hlt|Hge].
    - rewrite length_app in *. cbn in *. lia.
    - by apply IH. }
  destruct s as [|c s]; [done|].
  destruct (decide (c = 58)) as [->|Hc].
  - destruct s as [|c1 s]; [cbn; lia|].
    destruct (decide (c1 = 58)) as [->|Hc1].
    + rewrite loop_marker_pair. apply Hcheck. cbn; lia.
    + destruct s as [|c2 [|c3 s]].
      * rewrite loop_marker_short; [lia | cbn; lia | by intros [=]].
      * rewrite loop_marker_short; [lia | cbn; lia | by intros [=]].
      * rewrite loop_escape by done.
        destruct (convert_number c1 c2 c3).2.
        -- rewrite length_app. cbn. lia.
        -- apply Hcheck. cbn; lia.
  - rewrite loop_plain by done. apply Hcheck. cbn; lia.
Qed.




(** C3, as amended (a single marker and three decimal digits): the byte
    stored is the number that the digits write, modulo 256, whatever
    follows and whatever was stored before; alone, the escape compiles to
    that one byte; the byte is the number itself when the number is at
    most 255.  There is no test of the range. *)
Theorem GetPattern_decimal_wraps d1 d2 d3 :
  Ctype.isdigit d1 = true -> Ctype.isdigit d2 = true -> Ctype.isdigit d3 = true ->
  let v := decimal_value d1 d2 d3 in
  (∀ rest pBuffer,
      GetPattern_loop PAT_BUFSIZ (58 :: d1 :: d2 :: d3 :: rest) pBuffer =
        check_length PAT_BUFSIZ (pBuffer ++ [v mod 256])
          (GetPattern_loop PAT_BUFSIZ rest (pBuffer ++ [v mod 256])))
  ∧ ((1 <= PAT_BUFSIZ)%nat ->
     GetPattern PAT_BUFSIZ [58; d1; d2; d3] = Returned [v mod 256])
  ∧ (v <= 255 -> v mod 256 = v).
Proof.
  intros H1 H2 H3 v.
  assert (Hloop : ∀ rest pBuffer,
      GetPattern_loop PAT_BUFSIZ (58 :: d1 :: d2 :: d3 :: rest) pBuffer =
        check_length PAT_BUFSIZ (pBuffer ++ [v mod 256])
          (GetPattern_loop PAT_BUFSIZ rest (pBuffer ++ [v mod 256]))).
  { intros rest pBuffer. cbn [GetPattern_loop]. cbn [Z.eqb Pos.eqb negb].
    assert ((d1 =? 58) = false) as ->.
    { unfold Ctype.isdigit in H1. lia. }
    by rewrite convert_number_decimal. }
  split; [done|]. split.
  - intros HPAT. unfold GetPattern. rewrite Hloop. cbn [app].
    unfold check_length. cbn [length GetPattern_loop].
    by destruct (Nat.ltb_spec PAT_BUFSIZ 1); [lia|].
  - intros Hv. apply Z.mod_small. subst v.
    unfold decimal_value, Ctype.isdigit in *. lia.
Qed.

(** ** The length of the compiled pattern *)

(** ** Length *)
Lemma decode_pairs_zeros n : decode_pairs (repeat 48 (2 * n)) = repeat 0 n.
Proof.
  induction n as [|n IH]; [done|].
  replace (2 * S n)%nat with (S (S (2 * n)))%nat by lia.
  cbn [repeat decode_pairs]. by rewrite IH.
Qed.

Lemma ParseHexLine_zeros n :
  ParseHexLine (repeat 48 (2 * n)) = Returned (repeat 0 n).
Proof.
  assert (Hev : Nat.even (length (repeat 48 (2 * n))) = true).
  { rewrite repeat_length. apply Nat.even_spec. by exists n. }
  assert (Hx : Forall (λ c, Ctype.isxdigit c = true) (repeat 48 (2 * n))).
  { apply Forall_forall. intros c Hc%list_elem_of_In%repeat_spec. by subst. }
  destruct (ParseHexLine_hex _ Hev Hx) as [-> _]. by rewrite decode_pairs_zeros.
Qed.

(** C5 (every compilation path enforces the maximum length).  The
    hex-literal path does not: [ParseHexLine] has no test of the length.
    For the specification of 2 * (PAT_BUFSIZ + 1) digits '0' it returns
    PAT_BUFSIZ + 1 bytes, one more than the buffer holds, and no
    PatternTooLong; [GetArgs] takes that as the number of items.  The
    escaped-text path and the expansion have the test
    ([loop_stored_bound], [GetPattern_one_past], [DoExpansion]). *)
Theorem ParseHexLine_unbounded :
  let spec := repeat 48 (2 * S PAT_BUFSIZ) in
  ParseHexLine spec = Returned (repeat 0 (S PAT_BUFSIZ))
  ∧ (PAT_BUFSIZ < length (stored (ParseHexLine spec)))%nat
  ∧ ¬ fails_with (ParseHexLine spec) PatternTooLong
  ∧ ∀ Buf, compile_option PAT_BUFSIZ true false spec Buf
           = inr (store (repeat 0 (S PAT_BUFSIZ)) Buf, S PAT_BUFSIZ).
Proof.
  intros spec. subst spec. rewrite ParseHexLine_zeros.
  split; [done|]. split; [cbn [stored]; rewrite repeat_length; lia|].
  split.
  - intros (a & w & H & _). discriminate H.
  - intros Buf. unfold compile_option. rewrite ParseHexLine_zeros.
    cbn [andb]. by rewrite repeat_length.
Qed.

(** The escaped-text path tests the length only after the store: one
    character more than the buffer holds is stored before the abort. *)
Lemma GetPattern_one_past :
  GetPattern PAT_BUFSIZ (repeat 97 (S PAT_BUFSIZ))
    = Aborted AbortBufferLength (repeat 97 (S PAT_BUFSIZ)).
Proof.
  unfold GetPattern.
  assert (H : ∀ n acc, (length acc + S n = S PAT_BUFSIZ)%nat ->
    GetPattern_loop PAT_BUFSIZ (repeat 97 (S n)) acc
      = Aborted AbortBufferLength (acc ++ repeat 97 (S n))).
  { induction n as [|n IH]; intros acc Hlen.
    - cbn [repeat]. rewrite loop_plain by done.
      rewrite check_length_over; [done | rewrite length_app; cbn; lia].
    - change (repeat 97 (S (S n))) with (97 :: repeat 97 (S n)).
      rewrite loop_plain by done.
      rewrite check_length_fits by (rewrite length_app; cbn; lia).
      rewrite IH by (rewrite length_app; cbn; lia).
      by rewrite <- app_assoc. }
  apply (H _ []). cbn. lia.
Qed.

(** ** Wide expansion *)

Lemma DoExpansion_loop_spec TmpBuf n : ∀ i j (pBuf : list Z),
  (j + 2 * n <= length pBuf)%nat ->
  let pBuf' := DoExpansion_loop TmpBuf n i j pBuf in
  length pBuf' = length pBuf
  ∧ (∀ k, (k < n)%nat ->
        pBuf' !! (j + 2 * k)%nat = Some (default 0%Z (TmpBuf !! (i + k)%nat))
        ∧ pBuf' !! (j + 2 * k + 1)%nat = Some 0%Z)
  ∧ (∀ m, (m < j)%nat ∨ (j + 2 * n <= m)%nat -> pBuf' !! m = pBuf !! m).
Proof.
  induction n as [|n IH]; intros i j pBuf Hlen; cbn zeta.
  - cbn [DoExpansion_loop]. split; [done|]. split; [lia | done].
  - cbn [DoExpansion_loop].
    set (v := default 0%Z (TmpBuf !! i)).
    set (pBuf1 := <[S j := 0%Z]> (<[j := v]> pBuf)).
    assert (Hlen1 : length pBuf1 = length pBuf).
    { unfold pBuf1. by rewrite !length_insert. }
    destruct (IH (S i) (S (S j)) pBuf1) as (IHlen & IHin & IHout); [lia|].
    split; [lia|]. split.
    + intros k Hk. destruct k as [|k].
      * replace (j + 2 * 0)%nat with j by lia. replace (i + 0)%nat with i by lia.
        replace (j + 1)%nat with (S j) by lia.
        rewrite !IHout by lia. unfold pBuf1. split.
        -- rewrite list_lookup_insert_ne by lia.
           apply list_lookup_insert_eq. lia.
        -- apply list_lookup_insert_eq. rewrite length_insert. lia.
      * replace (j + 2 * S k)%nat with (S (S j) + 2 * k)%nat by lia.
        replace (i + S k)%nat with (S i + k)%nat by lia.
        apply IHin. lia.
    + intros m Hm. rewrite IHout by lia. unfold pBuf1.
      rewrite !list_lookup_insert_ne by lia. done.
Qed.

(** C4 (wide expansion): on a buffer of PAT_BUFSIZ bytes and a length
    [Len] with 2 * Len within PAT_BUFSIZ, [DoExpansion] does not abort; the
    byte at index 2i is the byte that was at index i and the byte at index
    2i+1 is zero, for every i below [Len]; the bytes from 2 * Len on are
    left as they were. *)
Theorem DoExpansion_interleaves (pBuf : list Z) (Len : nat) :
  length pBuf = PAT_BUFSIZ -> (2 * Len <= PAT_BUFSIZ)%nat ->
  ∃ pBuf', DoExpansion PAT_BUFSIZ pBuf Len = inr pBuf'
    ∧ length pBuf' = PAT_BUFSIZ
    ∧ (∀ i, (i < Len)%nat ->
          pBuf' !! (2 * i)%nat = pBuf !! i
          ∧ pBuf' !! (2 * i + 1)%nat = Some 0%Z)
    ∧ (∀ m, (2 * Len <= m)%nat -> pBuf' !! m = pBuf !! m).
Proof.
  intros Hlen HLen. unfold DoExpansion.
  destruct (Nat.ltb_spec PAT_BUFSIZ (Len * 2)); [lia|].
  eexists. split; [reflexivity|].
  destruct (DoExpansion_loop_spec (take Len pBuf) Len 0 0 pBuf)
    as (Hl & Hin & Hout); [lia|].
  split; [lia|]. split.
  - intros i Hi. destruct (Hin i Hi) as [H0 H1]. cbn [Nat.add] in H0, H1.
    split; [|done]. rewrite H0. rewrite lookup_take_lt by done.
    destruct (lookup_lt_is_Some_2 pBuf i) as [x Hx]; [lia|]. by rewrite Hx.
  - intros m Hm. apply Hout. lia.
Qed.

End CompilerFacts.


(** C3 as the claim states it fails: [:999] compiles to the byte 231 (999
    modulo 256), it does not fail. *)
Lemma GetPattern_999 :
  GetPattern 256 (cstr ":999") = Returned [231]
  ∧ ¬ fails_with (GetPattern 256 (cstr ":999")) MalformedPattern.
Proof.
  split; [reflexivity|]. intros (a & w & H & _). discriminate H.
Qed.

(** ** Instances of the pattern compiler *)


Lemma GetPattern_decimal_wraps_witness :
  GetPattern 256 (cstr ":200") = Returned [200].
Proof.
  destruct (GetPattern_decimal_wraps 256 50 48 48) as (_ & H & _);
    [reflexivity | reflexivity | reflexivity |].
  apply H. lia.
Defined.

Lemma DoExpansion_interleaves_witness :
  ∃ pBuf', DoExpansion 8 [104; 105; 33; 7; 7; 7; 7; 7] 3 = inr pBuf'
    ∧ length pBuf' = 8%nat
    ∧ (∀ i, (i < 3)%nat ->
          pBuf' !! (2 * i)%nat = [104; 105; 33; 7; 7; 7; 7; 7] !! i
          ∧ pBuf' !! (2 * i + 1)%nat = Some 0)
    ∧ (∀ m, (2 * 3 <= m)%nat -> pBuf' !! m = [104; 105; 33; 7; 7; 7; 7; 7] !! m).
Proof.
  apply (DoExpansion_interleaves 8 [104; 105; 33; 7; 7; 7; 7; 7] 3);
    [reflexivity | lia].
Defined.

(** The result of the expansion on that buffer. *)
Example DoExpansion_hi :
  DoExpansion 8 [104; 105; 33; 7; 7; 7; 7; 7] 3 = inr [104; 0; 105; 0; 33; 0; 7; 7].
Proof. reflexivity. Qed.

(** [GetArgs] with the wide modifier: the expanded buffer and twice the
    number of items. *)
Example compile_option_wide :
  compile_option 8 false true (cstr "hi!") [7; 7; 7; 7; 7; 7; 7; 7]
    = inr ([104; 0; 105; 0; 33; 0; 7; 7], 6%nat).
Proof. reflexivity. Qed.

(** * Properties of the drivers *)

(** ** Runs *)

Lemma run_nil c : run [] c = c.
Proof. reflexivity. Qed.

Lemma run_cons ev evs c : run (ev :: evs) c = run evs (step ev c).
Proof. reflexivity. Qed.

Lemma run_app evs1 evs2 c : run (evs1 ++ evs2) c = run evs2 (run evs1 c).
Proof. unfold run. apply fold_left_app. Qed.

Lemma run_stopped evs w (p : prog unit) :
  running p = false -> run evs (w, p) = (w, p).
Proof.
  intros Hp. induction evs as [|ev evs IH]; [done|].
  rewrite run_cons. replace (step ev (w, p)) with (w, p); [done|].
  unfold step. cbn. by destruct p.
Qed.

Lemma CtrlBreak_critical e w :
  fCriticalPart w = true -> CtrlBreak e w = (w, None).
Proof. intros H. unfold CtrlBreak. by rewrite H. Qed.

Lemma always_stopped (P : config -> Prop) w (p : prog unit) :
  running p = false -> P (w, p) -> always P (w, p).
Proof. intros Hp HP evs. by rewrite run_stopped. Qed.

Lemma always_call (P : config -> Prop) w {R} (c : call R) (k : R -> prog unit) :
  P (w, Call c k) ->
  (∀ e r w', perform c e w = (r, w') -> always P (w', k r)) ->
  (fCriticalPart w = false ->
   ∀ e, P ((CtrlBreak e w).1, Exit EXIT_FAILURE)) ->
  always P (w, Call c k).
Proof.
  intros Hnow Hstep Hint evs. induction evs as [|ev evs IH]; [done|].
  rewrite run_cons. destruct ev as [e|e].
  - unfold step. cbn [fst snd]. destruct (perform c e w) as [r w'] eqn:Hp.
    by apply (Hstep e r w').
  - unfold step. cbn [fst snd]. destruct (fCriticalPart w) eqn:Hcrit.
    + by rewrite CtrlBreak_critical.
    + specialize (Hint eq_refl e). unfold CtrlBreak in *. rewrite Hcrit in *.
      cbn [fst] in Hint. by apply always_stopped.
Qed.

Lemma step_bind ev w (m : prog unit) (f : unit -> prog unit) :
  running m = true ->
  step ev (w, m ≫= f) = ((step ev (w, m)).1, (step ev (w, m)).2 ≫= f).
Proof.
  intros Hm. destruct m as [a|s|R c k]; try discriminate.
  unfold step, mbind, prog_bind. cbn [fst snd bind]. destruct ev as [e|e].
  - by destruct (perform c e w).
  - by destruct (CtrlBreak e w) as [w' [s|]].
Qed.

(** The instants of [m ≫= f] are those of [m], followed, once [m] has
    returned, by those of [f]: what holds at every instant of the body of
    the loop of [SearchReplace], from any state, holds in each turn of the
    loop. *)
Lemma run_bind evs : ∀ w (m : prog unit) (f : unit -> prog unit),
  ∃ evs1 evs2,
    evs = evs1 ++ evs2
    ∧ run evs (w, m ≫= f)
      = run evs2 ((run evs1 (w, m)).1, (run evs1 (w, m)).2 ≫= f)
    ∧ (evs2 = [] ∨ returned (run evs1 (w, m)).2 = true).
Proof.
  induction evs as [|ev evs IH]; intros w m f.
  - exists [], []. auto.
  - destruct m as [a|s|R c k].
    + exists [], (ev :: evs). auto.
    + exists (ev :: evs), []. rewrite app_nil_r.
      change (Exit s ≫= f) with (@Exit unit s).
      rewrite !(run_stopped (ev :: evs) w (Exit s)) by done.
      split; [done|]. split; [reflexivity | by left].
    + rewrite run_cons, step_bind by done.
      destruct (IH (step ev (w, Call c k)).1 (step ev (w, Call c k)).2 f)
        as (evs1 & evs2 & -> & Hrun & Hend).
      exists (ev :: evs1), evs2. rewrite run_cons.
      by rewrite <- surjective_pairing in Hrun, Hend.
Qed.

Lemma TmpName_loop_fresh n fs base num tmp num' :
  TmpName_loop n fs base num = (Some tmp, num') -> fs !! tmp = None.
Proof.
  revert num. induction n as [|n IH]; intros num H; [discriminate|].
  cbn [TmpName_loop] in H. case_bool_decide as Hf.
  - by injection H as <- _.
  - by apply IH in H.
Qed.

Lemma TmpName_fresh fs pPath pPrefix num tmp num' :
  TmpName fs pPath pPrefix num = (Some tmp, num') -> fs !! tmp = None.
Proof. apply TmpName_loop_fresh. Qed.

(** Fields of a state that is written out. *)
Ltac simpl_world :=
  cbn [files TmpNum fCriticalPart pOutFile pInputFile fpMsg opts history
       with_files with_TmpNum with_fCriticalPart with_pOutFile
       with_pInputFile with_fpMsg log fst snd app] in *.

(** The next call of the program. *)
Ltac head_normal :=
  unfold SearchReplace_file, OneSearchReplace_files, OneSearchReplace,
    fCheckFile, StreamSearchReplace, Abort, do,
    mbind, mret, prog_bind, prog_ret;
  cbn [bind negb Z.eqb Pos.eqb];
  simpl_world.

(** The answers that [perform] can give to a call. *)
Ltac split_perform H :=
  cbn [perform] in H; simpl_world;
  repeat lazymatch type of H with
    | context [if ?b then _ else _] => destruct b eqn:?
    | context [match ?x with _ => _ end] => destruct x eqn:?
    end;
  injection H as <- <-.

(** Every instant of every run of a program that is given in full: the
    property is left to prove at each instant, for each answer of the
    environment, and after [CtrlBreak] wherever the critical flag is
    clear.  The property is a constant that is unfolded at the leaves
    only. *)
Ltac explore :=
  head_normal;
  lazymatch goal with
  | |- always _ (_, Call _ _) =>
      apply always_call;
      [ idtac
      | let e := fresh "e" in let r := fresh "r" in let w' := fresh "w'" in
        let H := fresh "Hperform" in
        intros e r w' H; split_perform H; explore
      | let e := fresh "e" in let H := fresh "Hcrit" in
        intros H e; simpl_world; try discriminate H;
        unfold CtrlBreak; simpl_world; try rewrite H;
        cbn [perform]; simpl_world;
        repeat (lazymatch goal with
                | |- _ (?w, Exit _) =>
                    match w with
                    | context [match ?x with _ => _ end] => destruct x eqn:?
                    | context [if ?x then _ else _] => destruct x eqn:?
                    end
                end; simpl_world) ]
  | |- always _ (_, Ret _) => apply always_stopped; [reflexivity | idtac]
  | |- always _ (_, Exit _) => apply always_stopped; [reflexivity | idtac]
  | |- always _ (_, if ?b then _ else _) => destruct b eqn:?; explore
  | |- always _ (_, match ?x with _ => _ end) => destruct x eqn:?; explore
  | |- always _ (_, bind (if ?b then _ else _) _) => destruct b eqn:?; explore
  | |- always _ (_, bind (match ?x with _ => _ end) _) =>
      destruct x eqn:?; explore
  end.

(** A log that is written out does not hold the event [H] says it holds. *)
Ltac not_in_history H :=
  repeat (apply elem_of_cons in H as [H|H]; [try discriminate H|]);
  try (by apply elem_of_nil in H).

Lemma SearchReplace_file_critical pIn w0 :
  history w0 = [] ->
  always (commit_is_critical pIn) (w0, SearchReplace_file pIn).
Proof.
  destruct w0 as [fs num crit pout pin msg o h]. cbn [history]. intros ->.
  explore.
  all: unfold commit_is_critical, in_commit;
       cbn [fst snd running about_to_remove]; simpl_world.
  all: try (intros [? _]; discriminate).
  all: try (intros _; reflexivity).
  all: try (intros [_ [H|[H _]]]; [discriminate H | not_in_history H]).
Qed.

(** Tests of the program and of the environment, as propositions. *)
Ltac prep :=
  repeat match goal with
    | H : negb _ = true |- _ => apply negb_true_iff in H
    | H : negb _ = false |- _ => apply negb_false_iff in H
    | H : _ && _ = true |- _ => apply andb_true_iff in H as [? ?]
    | H : bool_decide _ = true |- _ => apply bool_decide_eq_true in H
    | H : bool_decide _ = false |- _ => apply bool_decide_eq_false in H
    | H : TmpName _ _ _ _ = (Some _, _) |- _ => apply TmpName_fresh in H
    | H : (_ =? _) = true |- _ => apply Z.eqb_eq in H
    | H : (_ =? _) = false |- _ => apply Z.eqb_neq in H
    end;
  try match goal with
    | H1 : ?fs !! ?s = None, H2 : is_Some (?fs !! ?p) |- _ =>
        assert (s ≠ p) by (intros ->; rewrite H1 in H2; by destruct H2)
    end.

(** Lookups in the files after inserts and deletes. *)
Ltac absurd_lookup :=
  match goal with
  | H1 : ?m !! ?k = None, H2 : is_Some (?m !! ?k) |- _ =>
      rewrite H1 in H2; by destruct H2
  | H : is_Some None |- _ => by destruct H
  end.

Ltac in_history :=
  repeat (apply elem_of_cons; first [left; reflexivity | right]).

Ltac lookups :=
  repeat first
    [ rewrite lookup_insert in *
    | rewrite lookup_delete in *
    | case_decide; simplify_eq ].

Lemma SearchReplace_file_temp pIn w0 :
  history w0 = [] ->
  always (temp_invariant (files w0) pIn) (w0, SearchReplace_file pIn).
Proof.
  destruct w0 as [fs num crit pout pin msg o h]. cbn [history files]. intros ->.
  explore.
  all: unfold temp_invariant, made; cbn [fst snd returned]; simpl_world.
  all: prep.
  all: (split; [|split; [|split]]);
       [ intros f [Hf Hnone] | intros f [Hf Hnone] Hx
       | intros f [Hf Hnone] Hx
       | intros Hret f [Hf Hnone]; try discriminate Hret ].
  all: lookups.
  all: try absurd_lookup.
  all: try congruence.
  all: try (split; [reflexivity | split; [in_history | reflexivity]]).
Qed.


Ltac no_rename_tac :=
  let ev := fresh "ev" in let H := fresh "H" in
  intros ev H;
  repeat (apply elem_of_cons in H as [->|H]; [reflexivity|]);
  by apply elem_of_nil in H.




(** ** Filter mode *)

(** The steps of a run from a state that is written out. *)
Ltac run_steps :=
  cbn [repeat run fold_left step fst snd perform bind negb opts
       Z.eqb Pos.eqb Z.ltb Z.compare Pos.compare Pos.compare_cont
       with_pInputFile with_fpMsg with_files with_fCriticalPart with_pOutFile
       with_TmpNum files TmpNum fCriticalPart pOutFile pInputFile fpMsg
       history log].

Lemma StreamSearchReplace_many w e :
  fSearchReplace (opts w) = true -> 1 < bmg_result e ->
  let c := run (repeat (Step e) 6) (w, StreamSearchReplace) in
  c.2 = Ret tt
  ∧ history c.1 = history w ++ [EvSearchReplace (bmg_result e); EvFflush Stdout;
                                summary (bmg_result e)].
Proof.
  intros Hsr Hn. destruct w as [fs num crit pout pin msg o h].
  cbn [opts] in Hsr. cbn zeta.
  unfold StreamSearchReplace, Abort, do, mbind, mret, prog_bind, prog_ret.
  run_steps. rewrite Hsr. run_steps.
  destruct (Z.eqb_spec (bmg_result e) (-1)) as [|_]; [lia|].
  destruct (Z.ltb_spec 1 (bmg_result e)) as [_|]; [|lia].
  run_steps. split; [reflexivity|]. by rewrite <- !app_assoc.
Qed.

Lemma StreamSearchReplace_write_failure w e :
  fSearchReplace (opts w) = true -> bmg_result e = -1 ->
  let c := run (repeat (Step e) 7) (w, StreamSearchReplace) in
  c.2 = Exit EXIT_FAILURE
  ∧ history c.1 = history w ++ [EvSearchReplace (-1);
                                EvFprintf Stderr "gsar: " [];
                                EvFprintf Stderr "error in writing file to stdout\n" [];
                                EvFprintf Stderr "\n" []].
Proof.
  intros Hsr Hn. destruct w as [fs num crit pout pin msg o h].
  cbn [opts] in Hsr. cbn zeta.
  unfold StreamSearchReplace, Abort, do, mbind, mret, prog_bind, prog_ret.
  run_steps. rewrite Hsr. run_steps. rewrite Hn. run_steps.
  split; [reflexivity|]. by rewrite <- !app_assoc.
Qed.

Lemma StreamSearchReplace_single w e :
  fSearchReplace (opts w) = true -> bmg_result e = 1 ->
  ∀ n, let c := run (repeat (Step e) (4 + n)) (w, StreamSearchReplace) in
  c.2 = Ret tt ∧ history c.1 = history w ++ [EvSearchReplace 1].
Proof.
  intros Hsr Hn n. destruct w as [fs num crit pout pin msg o h].
  cbn [opts] in Hsr. cbn zeta.
  unfold StreamSearchReplace, Abort, do, mbind, mret, prog_bind, prog_ret.
  cbn [Nat.add]. run_steps. rewrite Hsr. run_steps. rewrite Hn. run_steps.
  change (fold_left (λ c ev, step ev c) (repeat (Step e) n))
    with (run (repeat (Step e) n)).
  rewrite run_stopped by reflexivity. done.
Qed.

(** C8 (in filter mode every match count of at least 1 gives the summary
    line, the write-failure signal gives the fatal report).  The code does
    not print the summary for one match: with a pass that reports 1,
    [StreamSearchReplace] returns having written nothing to the message
    stream.  The test is [nMatches > 1]; from two matches on the summary
    is printed ([StreamSearchReplace_many]) and -1 gives the report
    ([StreamSearchReplace_write_failure]). *)
Theorem StreamSearchReplace_single_match_silent :
  let w := initial ∅ (Flags true false true) in
  let c := run (repeat (Step (Choice true 1 [])) 4) (w, StreamSearchReplace) in
  c.2 = Ret tt ∧ history c.1 = [EvSearchReplace 1].
Proof.
  apply (StreamSearchReplace_single (initial ∅ (Flags true false true))
           (Choice true 1 []) eq_refl eq_refl 0%nat).
Qed.

(** ** The commit of in-place and explicit-output mode *)



(** The run of the witness comes to the end of the body. *)
Example zero_matches_returns :
  returned (run (repeat (Step (reports 0)) 20)
                (example_world, SearchReplace_file "a.txt")).2 = true
  ∧ returned (run (repeat (Step (reports 0)) 20)
                  (example_world, OneSearchReplace ["a.txt"; "b.txt"])).2 = true.
Proof. split; vm_compute; reflexivity. Qed.


(** C7 (the commit is not interruptible): at every instant of in-place
    mode from the one before the call that removes the input file until
    a rename onto it has succeeded or the process has exited, the critical
    flag is set, and [CtrlBreak] returns with the state unchanged: the
    process goes on and no file is removed. *)
Theorem commit_not_interruptible pIn w0 evs :
  history w0 = [] ->
  let c := run evs (w0, SearchReplace_file pIn) in
  in_commit pIn c ->
  fCriticalPart c.1 = true
  ∧ ∀ e, CtrlBreak e c.1 = (c.1, None) ∧ step (Sigint e) c = c.
Proof.
  intros Hh c Hin.
  assert (Hcrit : fCriticalPart c.1 = true).
  { by apply (SearchReplace_file_critical pIn w0 Hh evs). }
  split; [done|]. intros e.
  assert (HC : CtrlBreak e c.1 = (c.1, None)) by by apply CtrlBreak_critical.
  split; [done|]. unfold step. rewrite HC.
  destruct c as [w p]. by destruct p.
Qed.

Lemma commit_not_interruptible_witness :
  (let c := run (repeat (Step (reports 2)) 12)
                (example_world, SearchReplace_file "a.txt") in
   fCriticalPart c.1 = true
   ∧ ∀ e, CtrlBreak e c.1 = (c.1, None) ∧ step (Sigint e) c = c)
  ∧ (let c := run (repeat (Step (reports 2)) 13)
                  (example_world, SearchReplace_file "a.txt") in
     fCriticalPart c.1 = true
     ∧ ∀ e, CtrlBreak e c.1 = (c.1, None) ∧ step (Sigint e) c = c).
Proof.
  split.
  - apply (commit_not_interruptible "a.txt" example_world
             (repeat (Step (reports 2)) 12) eq_refl).
    split; [vm_compute; reflexivity|]. left. vm_compute. reflexivity.
  - apply (commit_not_interruptible "a.txt" example_world
             (repeat (Step (reports 2)) 13) eq_refl).
    split; [vm_compute; reflexivity|]. right. split.
    + apply (list_elem_of_lookup_2 _ 5). vm_compute. reflexivity.
    + intros tmp Htmp.
      assert (Hh : history (run (repeat (Step (reports 2)) 13)
                     (example_world, SearchReplace_file "a.txt")).1
                   = [EvFopen "a.txt" RB true; EvFopen "gsr_0000.tmp" WB true;
                      EvSearchReplace 2; EvFclose "a.txt";
                      EvFclose "gsr_0000.tmp"; EvRemove "a.txt" 0])
        by (vm_compute; reflexivity).
      rewrite Hh in Htmp. not_in_history Htmp.
Defined.

(** C9 as the claim states it fails: in the example, at the instant after
    in-place mode has removed the input file, the process runs, the
    temporary file exists and the input file does not. *)
Lemma temp_outlives_original :
  running instant_after_delete.2 = true
  ∧ files instant_after_delete.1 !! "gsr_0000.tmp" = Some [9]
  ∧ example_files !! "gsr_0000.tmp" = None
  ∧ pOutFile instant_after_delete.1 = Some "gsr_0000.tmp"
  ∧ example_files !! "a.txt" = Some [1; 2; 3]
  ∧ files instant_after_delete.1 !! "a.txt" = None.
Proof. repeat split; vm_compute; reflexivity. Qed.

(** C9, as amended: at every instant of the in-place processing of one
    file, the only file that the run has made and that exists is the
    temporary file that [pOutFile] names; while it exists and the critical
    flag is clear the input file is as it was; the input file differs,
    with the temporary file there, only under the critical flag and after
    the input file was removed; no file made is left when the body
    returns. *)
Theorem temp_file_invariant pIn w0 evs :
  history w0 = [] ->
  temp_invariant (files w0) pIn (run evs (w0, SearchReplace_file pIn)).
Proof. intros Hh. by apply SearchReplace_file_temp. Qed.

Lemma temp_file_invariant_witness :
  temp_invariant example_files "a.txt"
    (run (repeat (Step (reports 2)) 9) (example_world, SearchReplace_file "a.txt"))
  ∧ temp_invariant example_files "a.txt"
      (run (repeat (Step (reports 2)) 13)
           (example_world, SearchReplace_file "a.txt")).
Proof.
  split.
  - apply (temp_file_invariant "a.txt" example_world
             (repeat (Step (reports 2)) 9) eq_refl).
  - apply (temp_file_invariant "a.txt" example_world
             (repeat (Step (reports 2)) 13) eq_refl).
Defined.

(** At the first instant of that witness the temporary file exists and
    the critical flag is clear; at the second the input file is gone. *)
Example temp_file_instants :
  made example_files
    (run (repeat (Step (reports 2)) 9)
         (example_world, SearchReplace_file "a.txt")).1 "gsr_0000.tmp"
  ∧ fCriticalPart
      (run (repeat (Step (reports 2)) 9)
           (example_world, SearchReplace_file "a.txt")).1 = false
  ∧ made example_files
      (run (repeat (Step (reports 2)) 13)
           (example_world, SearchReplace_file "a.txt")).1 "gsr_0000.tmp"
  ∧ files (run (repeat (Step (reports 2)) 13)
               (example_world, SearchReplace_file "a.txt")).1 !! "a.txt" = None.
Proof.
  unfold made. repeat split; try (vm_compute; reflexivity).
  all: eexists; vm_compute; reflexivity.
Qed.

(** * Further properties

    More of [gsar.c]: the outcomes of hex-literal mode, [DumpBuffer], the
    escapes of [GetPattern] in all their forms, [TmpName],
    [ExtractPathFromFSpec], [CtrlBreak], [FileSearch] and the drivers as a
    whole. *)

(** ** Hex-literal mode, all outcomes *)

Lemma ParseHexLine_loop_returns s : ∀ pOut out,
  Nat.even (length s) = true ->
  ParseHexLine_loop s pOut = Returned out
  ↔ forallb Ctype.isxdigit (high_chars s) = true ∧ out = pOut ++ raw_pairs s.
Proof.
  induction s as [|a|a b s IH] using list_pair_ind; intros pOut out Hev.
  - cbn. rewrite app_nil_r. split; [by intros [= ->] | by intros [_ ->]].
  - discriminate.
  - cbn [ParseHexLine_loop high_chars raw_pairs forallb].
    destruct (Ctype.isxdigit a); cbn [negb andb].
    + rewrite IH by done. by rewrite <- app_assoc.
    + split; [discriminate | by intros [? _]].
Qed.

(** X1 (what hex-literal mode accepts): hex-literal mode returns exactly on the strings of even length
    whose characters at even indices are hexadecimal digits, and what it
    returns are the bytes that [Text2Byte] makes of the adjacent pairs;
    the characters at odd indices are not tested. *)
Theorem ParseHexLine_returns_iff s out :
  ParseHexLine s = Returned out
  ↔ Nat.even (length s) = true
    ∧ forallb Ctype.isxdigit (high_chars s) = true
    ∧ out = raw_pairs s.
Proof.
  unfold ParseHexLine. rewrite land_1_even.
  destruct (Nat.even (length s)) eqn:Hev; cbn [negb].
  - rewrite ParseHexLine_loop_returns by done. cbn [app]. tauto.
  - split; [discriminate | by intros [? _]].
Qed.

Lemma ParseHexLine_loop_aborts s : ∀ pOut a written,
  ParseHexLine_loop s pOut = Aborted a written ->
  ∃ c, a = AbortNotHexDigit c ∧ c ∈ high_chars s ∧ Ctype.isxdigit c = false.
Proof.
  induction s as [|x|x y s IH] using list_pair_ind; intros pOut a written.
  - discriminate.
  - cbn. destruct (Ctype.isxdigit x) eqn:Hx; cbn; [discriminate|].
    intros [= <- <-]. exists x. split; [done|]. split; [by left | done].
  - cbn [ParseHexLine_loop high_chars].
    destruct (Ctype.isxdigit x) eqn:Hx; cbn [negb].
    + intros H. destruct (IH _ _ _ H) as (c & -> & Hc & Hx').
      exists c. split; [done|]. split; [by right | done].
    + intros [= <- <-]. exists x. split; [done|]. split; [by left | done].
Qed.

(** X2 (how hex-literal mode fails): hex-literal mode aborts in two ways only, on an odd length before
    anything is stored, or on a character at an even index that is no
    hexadecimal digit; it never aborts for the length of its output. *)
Theorem ParseHexLine_aborts s a written :
  ParseHexLine s = Aborted a written ->
  (a = AbortOddHex ∧ Nat.odd (length s) = true ∧ written = [])
  ∨ (∃ c, a = AbortNotHexDigit c ∧ c ∈ high_chars s
          ∧ Ctype.isxdigit c = false ∧ Nat.even (length s) = true).
Proof.
  unfold ParseHexLine. rewrite land_1_even.
  destruct (Nat.even (length s)) eqn:Hev; cbn [negb].
  - intros H. right. destruct (ParseHexLine_loop_aborts _ _ _ _ H) as (c & ? & ? & ?).
    by exists c.
  - intros [= <- <-]. left. split; [done|]. split; [|done].
    by rewrite <- Nat.negb_even, Hev.
Qed.

Lemma ParseHexLine_aborts_witness :
  (AbortNotHexDigit 71 = AbortOddHex ∧ Nat.odd (length (cstr "G2")) = true
   ∧ @nil Z = [])
  ∨ (∃ c, AbortNotHexDigit 71 = AbortNotHexDigit c ∧ c ∈ high_chars (cstr "G2")
          ∧ Ctype.isxdigit c = false ∧ Nat.even (length (cstr "G2")) = true).
Proof.
  apply (ParseHexLine_aborts (cstr "G2") (AbortNotHexDigit 71) []).
  reflexivity.
Defined.

(** ** [DumpBuffer] *)

Lemma is_byte_cases c : is_byte c = true -> In c bytes.
Proof.
  unfold is_byte, bytes. intros H. apply list_elem_of_In, elem_of_seqZ. lia.
Qed.

(** *** DumpBuffer *)

Lemma dump_pair_ok_all : forallb dump_pair_ok bytes = true.
Proof. vm_compute. reflexivity. Qed.

Lemma sprintf_02x_pair b :
  is_byte b = true ->
  ∃ hi lo, cstr (sprintf_02x b) = [hi; lo]
           ∧ Ctype.isxdigit hi = true ∧ Ctype.isxdigit lo = true
           ∧ Text2Byte hi lo = b
           ∧ hi ≠ 32 ∧ hi ≠ 10 ∧ lo ≠ 32 ∧ lo ≠ 10.
Proof.
  intros Hb%is_byte_cases. pose proof dump_pair_ok_all as H.
  rewrite forallb_forall in H. specialize (H b Hb). unfold dump_pair_ok in H.
  destruct (cstr (sprintf_02x b)) as [|hi [|lo [|? ?]]]; try discriminate.
  exists hi, lo. split; [done|].
  repeat (apply andb_true_iff in H as [H ?]). repeat split; try done; lia.
Qed.

Lemma dump_digits_item hi lo rest :
  hi ≠ 32 -> hi ≠ 10 -> lo ≠ 32 -> lo ≠ 10 ->
  dump_digits ([hi; lo] ++ [32] ++ rest) = hi :: lo :: dump_digits rest.
Proof.
  intros. unfold dump_digits. cbn [app].
  rewrite filter_cons_True by done. rewrite filter_cons_True by done.
  rewrite filter_cons_False by lia. done.
Qed.

Lemma dump_digits_hex bs :
  Forall (λ b, is_byte b = true) bs ->
  ∀ pOut, ParseHexLine_loop (dump_digits (DumpBuffer_hex (length bs) bs ++ [10])) pOut
          = Returned (pOut ++ bs)
  ∧ Nat.even (length (dump_digits (DumpBuffer_hex (length bs) bs ++ [10]))) = true.
Proof.
  induction 1 as [|b bs Hb Hbs IH]; intros pOut.
  - cbn. by rewrite app_nil_r.
  - destruct (sprintf_02x_pair b Hb) as (hi & lo & Hs & Hhi & Hlo & HT & ? & ? & ? & ?).
    cbn [length DumpBuffer_hex]. rewrite Hs. rewrite <- !app_assoc.
    rewrite dump_digits_item by done.
    destruct (IH (pOut ++ [b])) as [IH1 IH2].
    cbn [ParseHexLine_loop length Nat.even]. rewrite Hhi. cbn [negb]. rewrite HT.
    split; [|done]. rewrite IH1. by rewrite <- app_assoc.
Qed.

(** X3 (the hexadecimal dump reads back): for a [Base] that is not zero
    as an [unsigned char] (not a multiple of 256), the digits of the line
    that [DumpBuffer] prints for a buffer of bytes, without the blanks
    and the end of line, are a hex-literal specification that
    [ParseHexLine] compiles to the buffer. *)
Theorem DumpBuffer_hex_round_trip bs Base :
  Forall (λ b, is_byte b = true) bs -> Base mod 256 ≠ 0 ->
  ParseHexLine (dump_digits (DumpBuffer bs (length bs) Base)) = Returned bs.
Proof.
  intros Hbs HBase. unfold DumpBuffer.
  destruct (Z.eqb_spec (Base mod 256) 0); [done|].
  destruct (dump_digits_hex bs Hbs []) as [H1 H2].
  unfold ParseHexLine. rewrite land_1_even, H2. cbn [negb]. by rewrite H1.
Qed.

Lemma DumpBuffer_hex_round_trip_witness :
  ParseHexLine (dump_digits (DumpBuffer [47; 111; 111; 0; 255] 5 1))
    = Returned [47; 111; 111; 0; 255].
Proof.
  apply (DumpBuffer_hex_round_trip [47; 111; 111; 0; 255] 1);
    [repeat constructor | discriminate].
Defined.

(** X4 (the textual dump): [DumpBuffer] in textual mode prints [nItem]
    characters and an end of line; each one is printable, and it is the
    one of the buffer where that is printable, a dot elsewhere (a NUL does
    not end the dump). *)
Theorem DumpBuffer_text_printable pBuffer nItem :
  (nItem <= length pBuffer)%nat ->
  ∃ line, DumpBuffer pBuffer nItem 0 = line ++ [10]
    ∧ length line = nItem
    ∧ Forall (λ c, isprint c = true) line
    ∧ ∀ i c, (i < nItem)%nat -> pBuffer !! i = Some c ->
             line !! i = Some (if isprint c then c else 46).
Proof.
  intros Hn. exists (DumpBuffer_text nItem pBuffer). split; [done|].
  revert pBuffer Hn. induction nItem as [|n IH]; intros pBuffer Hn.
  - cbn. split; [done|]. split; [constructor|]. lia.
  - destruct pBuffer as [|c rest]; [cbn in Hn; lia|].
    cbn [DumpBuffer_text length]. cbn [length] in Hn.
    destruct (IH rest) as (Hl & Hp & Hi); [lia|].
    split; [lia|]. split.
    + constructor; [|done]. by destruct (isprint c) eqn:E.
    + intros [|i] c' Hlt Hc'; cbn in *; [by injection Hc' as ->|].
      apply Hi; [lia | done].
Qed.

Lemma DumpBuffer_text_printable_witness :
  ∃ line, DumpBuffer [102; 7; 111; 200] 3 0 = line ++ [10]
    ∧ length line = 3%nat
    ∧ Forall (λ c, isprint c = true) line
    ∧ ∀ i c, (i < 3)%nat -> [102; 7; 111; 200] !! i = Some c ->
             line !! i = Some (if isprint c then c else 46).
Proof. apply (DumpBuffer_text_printable [102; 7; 111; 200] 3). cbn. lia. Defined.

(** ** The escapes of [GetPattern], all forms *)

Lemma hex_escape_ok_all :
  forallb (λ c2, forallb (hex_escape_ok c2) bytes) bytes = true.
Proof. vm_compute. reflexivity. Qed.

Lemma convert_number_x c1 c2 c3 :
  Ctype.tolower c1 = 120 -> convert_number c1 c2 c3 = convert_number 120 c2 c3.
Proof. intros H. unfold convert_number. rewrite H. reflexivity. Qed.

Lemma convert_number_hex c1 c2 c3 :
  Ctype.tolower c1 = 120 -> is_byte c2 = true -> is_byte c3 = true ->
  convert_number c1 c2 c3 =
    if hex_escape_form c2 c3 then (hex_escape_value c2 c3, None)
    else ((convert_number c1 c2 c3).1, Some (AbortNotHexNumber [c2; c3])).
Proof.
  intros Hx H2%is_byte_cases H3%is_byte_cases. rewrite (convert_number_x c1) by done.
  pose proof hex_escape_ok_all as H.
  rewrite forallb_forall in H. specialize (H c2 H2).
  rewrite forallb_forall in H. specialize (H c3 H3).
  unfold hex_escape_ok in H.
  destruct (convert_number 120 c2 c3) as [byte [a|]].
  - destruct a; try discriminate.
    apply andb_true_iff in H as [Hf Hn]. apply negb_true_iff in Hf.
    apply bool_decide_eq_true in Hn. by rewrite Hf, Hn.
  - apply andb_true_iff in H as [Hf Hn]. apply Z.eqb_eq in Hn. by rewrite Hf, Hn.
Qed.

Lemma digit_in_10 c :
  Strtol.digit_in 10 c = if Ctype.isdigit c then Some (c - 48) else None.
Proof.
  unfold Strtol.digit_in, Strtol.digit_value, Ctype.isdigit.
  destruct ((48 <=? c) && (c <=? 57)) eqn:D.
  - destruct (Z.ltb_spec (c - 48) 10); [done | lia].
  - destruct ((97 <=? c) && (c <=? 122)) eqn:L.
    + destruct (Z.ltb_spec (c - 97 + 10) 10); [lia | done].
    + destruct ((65 <=? c) && (c <=? 90)) eqn:U; [|done].
      destruct (Z.ltb_spec (c - 65 + 10) 10); [lia | done].
Qed.

Lemma skip_0x_10 s : Strtol.skip_0x 10 s = s.
Proof. by destruct s as [|? [|? [|? ?]]]. Qed.

Ltac decimal_cases c1 c2 c3 :=
  destruct (Ctype.isspace c1) eqn:W1, (Ctype.isdigit c1) eqn:D1,
           (c1 =? 45) eqn:M1, (c1 =? 43) eqn:P1;
    try (unfold Ctype.isspace, Ctype.isdigit in *; lia);
  destruct (Ctype.isspace c2) eqn:W2, (Ctype.isdigit c2) eqn:D2,
           (c2 =? 45) eqn:M2, (c2 =? 43) eqn:P2;
    try (unfold Ctype.isspace, Ctype.isdigit in *; lia);
  destruct (Ctype.isspace c3) eqn:W3, (Ctype.isdigit c3) eqn:D3,
           (c3 =? 45) eqn:M3, (c3 =? 43) eqn:P3;
    try (unfold Ctype.isspace, Ctype.isdigit in *; lia);
  repeat (cbn [Strtol.skip_space Strtol.skip_sign Strtol.digits fst snd
               andb orb negb length Nat.eqb];
          rewrite ?skip_0x_10, ?digit_in_10,
                  ?W1, ?W2, ?W3, ?M1, ?M2, ?M3, ?P1, ?P2, ?P3, ?D1, ?D2, ?D3).

Lemma convert_number_decimal_forms c1 c2 c3 :
  Ctype.tolower c1 ≠ 120 ->
  convert_number c1 c2 c3 =
    if decimal_form c1 c2 c3
    then (decimal_escape_value c1 c2 c3 mod 256, None)
    else ((convert_number c1 c2 c3).1, Some (AbortNotDecNumber [c1; c2; c3])).
Proof.
  intros Hx. unfold convert_number. destruct (Z.eqb_spec (Ctype.tolower c1) 120); [done|].
  unfold Strtol.strtol, decimal_form, decimal_escape_value, decimal_value, is_sign.
  decimal_cases c1 c2 c3.
  all: try reflexivity.
  all: try (do 2 f_equal; lia).

Qed.

Section MoreEscapes.
Variable PAT_BUFSIZ : nat.

(** X5 (decimal escapes, all forms): a single colon followed by three
    characters, the first of which is no colon and no [x], is accepted
    exactly when [strtol] in base 10 reads all three: three digits, a
    blank or a sign and two digits, or a blank, a blank or a sign, and one
    digit.  The byte stored is the number modulo 256, also for a negative
    number; otherwise the compilation aborts after the store. *)
Theorem GetPattern_decimal_forms c1 c2 c3 rest pBuffer :
  c1 ≠ 58 -> Ctype.tolower c1 ≠ 120 ->
  GetPattern_loop PAT_BUFSIZ (58 :: c1 :: c2 :: c3 :: rest) pBuffer =
    if decimal_form c1 c2 c3 then
      let byte := decimal_escape_value c1 c2 c3 mod 256 in
      check_length PAT_BUFSIZ (pBuffer ++ [byte])
        (GetPattern_loop PAT_BUFSIZ rest (pBuffer ++ [byte]))
    else
      Aborted (AbortNotDecNumber [c1; c2; c3])
              (pBuffer ++ [(convert_number c1 c2 c3).1]).
Proof.
  intros Hc Hx. rewrite loop_escape by done.
  pose proof (convert_number_decimal_forms c1 c2 c3 Hx) as E.
  destruct (decimal_form c1 c2 c3); destruct (convert_number c1 c2 c3) as [b f];
    cbn [fst snd] in *; by simplify_eq.
Qed.

(** X6 (hexadecimal escapes, all forms): a single colon followed by [x]
    or [X] and two characters is accepted exactly when the second is a
    hexadecimal digit and the first is one too or is again an [x] (the
    prefix [0x] that [strtol] skips); otherwise the compilation aborts
    after the store. *)
Theorem GetPattern_hex_forms c1 c2 c3 rest pBuffer :
  Ctype.tolower c1 = 120 -> is_byte c2 = true -> is_byte c3 = true ->
  GetPattern_loop PAT_BUFSIZ (58 :: c1 :: c2 :: c3 :: rest) pBuffer =
    if hex_escape_form c2 c3 then
      let byte := hex_escape_value c2 c3 in
      check_length PAT_BUFSIZ (pBuffer ++ [byte])
        (GetPattern_loop PAT_BUFSIZ rest (pBuffer ++ [byte]))
    else
      Aborted (AbortNotHexNumber [c2; c3])
              (pBuffer ++ [(convert_number c1 c2 c3).1]).
Proof.
  intros Hx H2 H3. rewrite loop_escape.
  2:{ unfold Ctype.tolower in Hx. intros ->. cbn in Hx. lia. }
  pose proof (convert_number_hex c1 c2 c3 Hx H2 H3) as E.
  destruct (hex_escape_form c2 c3); destruct (convert_number c1 c2 c3) as [b f];
    cbn [fst snd] in *; by simplify_eq.
Qed.

Lemma escape_round_trip_loop s : ∀ acc,
  (length acc + length s <= PAT_BUFSIZ)%nat ->
  GetPattern_loop PAT_BUFSIZ (escape_colons s) acc = Returned (acc ++ s).
Proof.
  induction s as [|c s IH]; intros acc Hlen.
  - cbn. by rewrite app_nil_r.
  - cbn [length] in Hlen. unfold escape_colons. cbn [flat_map].
    fold (escape_colons s). destruct (Z.eqb_spec c 58) as [->|Hc].
    + cbn [app]. rewrite loop_marker_pair.
      rewrite check_length_fits by (rewrite length_app; cbn; lia).
      rewrite IH by (rewrite length_app; cbn; lia). by rewrite <- app_assoc.
    + cbn [app]. rewrite loop_plain by done.
      rewrite check_length_fits by (rewrite length_app; cbn; lia).
      rewrite IH by (rewrite length_app; cbn; lia). by rewrite <- app_assoc.
Qed.

(** X: round trip of escaping. *)
(** X7 (doubling the colons quotes a text): a text whose colons are
    doubled compiles to the text, if that fits the buffer. *)
Theorem GetPattern_escape_round_trip s :
  (length s <= PAT_BUFSIZ)%nat ->
  GetPattern PAT_BUFSIZ (escape_colons s) = Returned s.
Proof. intros H. unfold GetPattern. by rewrite escape_round_trip_loop. Qed.

Lemma escape_colons_plain s : 58 ∉ s -> escape_colons s = s.
Proof.
  induction s as [|c s IH]; intros Hs; [done|].
  apply not_elem_of_cons in Hs as [Hc Hs]. unfold escape_colons. cbn [flat_map].
  fold (escape_colons s). rewrite IH by done.
  by destruct (Z.eqb_spec c 58); [congruence|].
Qed.

(** X8 (plain text): a text without colon compiles to itself, if it
    fits the buffer. *)
Theorem GetPattern_plain s :
  58 ∉ s -> (length s <= PAT_BUFSIZ)%nat -> GetPattern PAT_BUFSIZ s = Returned s.
Proof.
  intros Hs Hlen. rewrite <- (escape_colons_plain s Hs) at 1.
  unfold GetPattern. by rewrite escape_round_trip_loop.
Qed.

Lemma loop_length_le s : ∀ acc,
  (length (stored (GetPattern_loop PAT_BUFSIZ s acc)) <= length acc + length s)%nat.
Proof.
  induction s as [s IH] using (induction_ltof1 _ (@length Z)).
  unfold ltof in IH. intros acc.
  assert (Hcheck : ∀ b rest, (length rest < length s)%nat ->
    (length (stored (check_length PAT_BUFSIZ (acc ++ [b])
                       (GetPattern_loop PAT_BUFSIZ rest (acc ++ [b]))))
     <= length acc + S (length rest))%nat).
  { intros b rest Hrest. unfold check_length.
    destruct (Nat.ltb_spec PAT_BUFSIZ (length (acc ++ [b]))).
    - cbn [stored]. rewrite length_app. cbn. lia.
    - specialize (IH rest Hrest (acc ++ [b])). rewrite length_app in IH.
      cbn in IH. lia. }
  destruct s as [|c s]; [cbn; lia|].
  destruct (decide (c = 58)) as [->|Hc].
  - destruct s as [|c1 s]; [cbn; lia|].
    destruct (decide (c1 = 58)) as [->|Hc1].
    + rewrite loop_marker_pair. etrans; [apply Hcheck; cbn; lia|]. cbn. lia.
    + destruct s as [|c2 [|c3 s]].
      * rewrite loop_marker_short; [cbn; lia | cbn; lia | by intros [=]].
      * rewrite loop_marker_short; [cbn; lia | cbn; lia | by intros [=]].
      * rewrite loop_escape by done.
        destruct (convert_number c1 c2 c3).2.
        -- cbn [stored]. rewrite length_app. cbn. lia.
        -- etrans; [apply Hcheck; cbn; lia|]. cbn. lia.
  - rewrite loop_plain by done. etrans; [apply Hcheck; cbn; lia|]. cbn. lia.
Qed.

(** X9 (length of a compiled pattern): a pattern that [GetPattern]
    returns is no longer than the buffer and no longer than its
    specification. *)
Theorem GetPattern_length s out :
  GetPattern PAT_BUFSIZ s = Returned out ->
  (length out <= PAT_BUFSIZ)%nat ∧ (length out <= length s)%nat.
Proof.
  intros H. split.
  - pose proof (loop_stored_bound PAT_BUFSIZ s [] ltac:(cbn; lia)) as Hb.
    unfold GetPattern in H. by rewrite H in Hb.
  - pose proof (loop_length_le s []) as Hl. unfold GetPattern in H.
    by rewrite H in Hl.
Qed.

(** X10 (the overrun is one byte): whatever the specification, returned
    or aborted, [GetPattern] stores at most one byte past the
    [PAT_BUFSIZ] bytes of the buffer. *)
Theorem GetPattern_stored_bound s :
  (length (stored (GetPattern PAT_BUFSIZ s)) <= S PAT_BUFSIZ)%nat.
Proof.
  pose proof (loop_stored_bound PAT_BUFSIZ s [] ltac:(cbn; lia)) as Hb.
  unfold GetPattern. destruct (GetPattern_loop PAT_BUFSIZ s []); cbn; lia.
Qed.

Lemma loop_shift s : ∀ acc1 acc2 o1,
  GetPattern_loop PAT_BUFSIZ s acc1 = Returned o1 ->
  ∃ o', o1 = acc1 ++ o'
        ∧ ((length acc2 + length o' <= PAT_BUFSIZ)%nat ->
           GetPattern_loop PAT_BUFSIZ s acc2 = Returned (acc2 ++ o')).
Proof.
  induction s as [s IH] using (induction_ltof1 _ (@length Z)).
  unfold ltof in IH. intros acc1 acc2 o1 H.
  assert (Hstep : ∀ b rest, (length rest < length s)%nat ->
    check_length PAT_BUFSIZ (acc1 ++ [b])
      (GetPattern_loop PAT_BUFSIZ rest (acc1 ++ [b])) = Returned o1 ->
    ∃ o', o1 = acc1 ++ o'
          ∧ ((length acc2 + length o' <= PAT_BUFSIZ)%nat ->
             check_length PAT_BUFSIZ (acc2 ++ [b])
               (GetPattern_loop PAT_BUFSIZ rest (acc2 ++ [b]))
             = Returned (acc2 ++ o'))).
  { intros b rest Hrest Hc. apply check_length_Returned in Hc as [Hc _].
    destruct (IH rest Hrest (acc1 ++ [b]) (acc2 ++ [b]) o1 Hc) as (o'' & -> & Ho).
    exists (b :: o''). split; [by rewrite <- app_assoc|].
    intros Hlen. cbn [length] in Hlen.
    rewrite check_length_fits by (rewrite length_app; cbn; lia).
    rewrite Ho by (rewrite length_app; cbn; lia). by rewrite <- app_assoc. }
  destruct s as [|c s].
  - injection H as <-. exists []. rewrite !app_nil_r. done.
  - destruct (decide (c = 58)) as [->|Hc].
    + destruct s as [|c1 s]; [discriminate H|].
      destruct (decide (c1 = 58)) as [->|Hc1].
      * rewrite loop_marker_pair in *. apply Hstep; [cbn; lia | done].
      * destruct s as [|c2 [|c3 s]].
        -- rewrite loop_marker_short in H; [discriminate | cbn; lia | by intros [=]].
        -- rewrite loop_marker_short in H; [discriminate | cbn; lia | by intros [=]].
        -- rewrite loop_escape in * by done.
           destruct (convert_number c1 c2 c3).2; [discriminate|].
           apply Hstep; [cbn; lia | done].
    + rewrite loop_plain in * by done. apply Hstep; [cbn; lia | done].
Qed.

(** X11 (compilation is compositional): when two specifications compile
    and their patterns fit the buffer together, the concatenation of the
    specifications compiles to the concatenation of the patterns. *)
Theorem GetPattern_app pre rest out out' :
  GetPattern PAT_BUFSIZ pre = Returned out ->
  GetPattern PAT_BUFSIZ rest = Returned out' ->
  (length out + length out' <= PAT_BUFSIZ)%nat ->
  GetPattern PAT_BUFSIZ (pre ++ rest) = Returned (out ++ out').
Proof.
  intros Hpre Hrest Hlen. unfold GetPattern in *.
  rewrite (loop_app _ _ _ _ rest Hpre).
  destruct (loop_shift rest [] out out' Hrest) as (o' & -> & Ho).
  by apply Ho.
Qed.

End MoreEscapes.

(** *** Wide expansion after compilation *)

Lemma interleave_zero_length s : length (interleave_zero s) = (2 * length s)%nat.
Proof. induction s as [|c s IH]; [done|]. cbn [interleave_zero flat_map app length] in *.
  unfold interleave_zero in IH. lia. Qed.

Lemma interleave_zero_lookup s : ∀ k,
  interleave_zero s !! (2 * k)%nat = s !! k
  ∧ interleave_zero s !! (2 * k + 1)%nat = (λ _, 0) <$> s !! k.
Proof.
  induction s as [|c s IH]; intros k; [done|].
  destruct k as [|k]; [done|].
  replace (2 * S k)%nat with (S (S (2 * k))) by lia.
  replace (S (S (2 * k)) + 1)%nat with (S (S (2 * k + 1))) by lia.
  apply IH.
Qed.

Lemma store_lookup out Buf i :
  (i < length out)%nat -> store out Buf !! i = out !! i.
Proof. intros H. unfold store. by rewrite lookup_app_l. Qed.

Lemma store_length out Buf :
  (length out <= length Buf)%nat -> length (store out Buf) = length Buf.
Proof. intros H. unfold store. rewrite length_app, length_drop. lia. Qed.

Section Wide.
Variable PAT_BUFSIZ : nat.

(** X12 (compilation with wide expansion): when the specification
    compiles to a pattern that is not empty, [case 's'] and [case 'r'] of
    [GetArgs] with the wide flag abort if twice the length exceeds
    [PAT_BUFSIZ]; otherwise the number of items is twice the length and
    the buffer starts with the pattern, a zero byte after each of its
    bytes. *)
Theorem compile_option_expands (fStringAsHex : bool) pOptArg Buf out :
  (if fStringAsHex then ParseHexLine pOptArg else GetPattern PAT_BUFSIZ pOptArg)
    = Returned out ->
  out ≠ [] -> length Buf = PAT_BUFSIZ ->
  if (PAT_BUFSIZ <? 2 * length out)%nat
  then compile_option PAT_BUFSIZ fStringAsHex true pOptArg Buf = inl AbortExpanded
  else ∃ Buf', compile_option PAT_BUFSIZ fStringAsHex true pOptArg Buf
                 = inr (Buf', (2 * length out)%nat)
               ∧ length Buf' = PAT_BUFSIZ
               ∧ take (2 * length out) Buf' = interleave_zero out.
Proof.
  intros Hc Hne HBuf. unfold compile_option. rewrite Hc.
  assert ((length out =? 0)%nat = false) as ->.
  { apply Nat.eqb_neq. by destruct out. }
  cbn [andb negb].
  destruct (Nat.ltb_spec PAT_BUFSIZ (2 * length out)) as [Hlt|Hge].
  - unfold DoExpansion. destruct (Nat.ltb_spec PAT_BUFSIZ (length out * 2)); [done|lia].
  - unfold DoExpansion. destruct (Nat.ltb_spec PAT_BUFSIZ (length out * 2)); [lia|].
    assert (HS : length (store out Buf) = PAT_BUFSIZ) by (rewrite store_length; lia).
    destruct (DoExpansion_loop_spec (take (length out) (store out Buf))
                (length out) 0 0 (store out Buf)) as (Hlen & Hin & _); [lia|].
    eexists. split; [f_equal; f_equal; lia|]. split; [lia|].
    apply list_eq. intros i.
    destruct (decide (i < 2 * length out)%nat) as [Hi|Hi].
    + rewrite lookup_take_lt by done.
      destruct (Nat.Even_or_Odd i) as [[k ->]|[k ->]].
      * destruct (Hin k) as [H0 _]; [lia|]. cbn [Nat.add] in H0. rewrite H0.
        rewrite lookup_take_lt, store_lookup by lia.
        destruct (interleave_zero_lookup out k) as [-> _].
        destruct (lookup_lt_is_Some_2 out k) as [x ->]; [lia|]. done.
      * destruct (Hin k) as [_ H1]; [lia|]. cbn [Nat.add] in H1. rewrite H1.
        destruct (interleave_zero_lookup out k) as [_ ->].
        destruct (lookup_lt_is_Some_2 out k) as [x ->]; [lia|]. done.
    + rewrite lookup_take_ge by lia. symmetry. apply lookup_ge_None.
      rewrite interleave_zero_length. lia.
Qed.

End Wide.

Lemma compile_option_expands_witness :
  ∃ Buf', compile_option 8 false true (cstr "a::") [7; 7; 7; 7; 7; 7; 7; 7]
            = inr (Buf', 4%nat)
          ∧ length Buf' = 8%nat
          ∧ take 4 Buf' = interleave_zero [97; 58].
Proof.
  apply (compile_option_expands 8 false (cstr "a::") [7; 7; 7; 7; 7; 7; 7; 7] [97; 58]);
    [reflexivity | discriminate | reflexivity].
Defined.

(** *** TmpName *)

Lemma TmpName_loop_spec pPath pPrefix fs n : ∀ num,
  match TmpName_loop n fs (pPath +:+ pPrefix) num with
  | (Some name, num') =>
      num < num' <= num + Z.of_nat n
      ∧ name = candidate pPath pPrefix num'
      ∧ fs !! name = None
      ∧ ∀ k, num < k < num' -> is_Some (fs !! candidate pPath pPrefix k)
  | (None, num') =>
      num' = num + Z.of_nat n
      ∧ ∀ k, num < k <= num' -> is_Some (fs !! candidate pPath pPrefix k)
  end.
Proof.
  induction n as [|n IH]; intros num.
  - cbn. split; [lia|]. intros k Hk. lia.
  - cbn [TmpName_loop]. fold (candidate pPath pPrefix (num + 1)).
    case_bool_decide as Hf.
    + split; [lia|]. split; [done|]. split; [done|]. intros k Hk. lia.
    + assert (Hex : is_Some (fs !! candidate pPath pPrefix (num + 1))).
      { by destruct (fs !! candidate pPath pPrefix (num + 1)). }
      specialize (IH (num + 1)).
      destruct (TmpName_loop n fs (pPath +:+ pPrefix) (num + 1)) as [[name|] num'].
      * destruct IH as (Hn & -> & Hfresh & Hall).
        split; [lia|]. split; [done|]. split; [done|].
        intros k Hk. destruct (decide (k = num + 1)) as [->|]; [done|].
        apply Hall. lia.
      * destruct IH as (-> & Hall). split; [lia|].
        intros k Hk. destruct (decide (k = num + 1)) as [->|]; [done|].
        apply Hall. lia.
Qed.

(** X13 (the temporary name is the first free one): [TmpName] tries the
    names made of the path, the prefix, the counter in hexadecimal and
    [.tmp], for the 32768 values that follow the counter.  It returns the
    first one that no file has, with the counter left there and every
    earlier name taken; it returns [NULL] only when all 32768 names are
    taken. *)
Theorem TmpName_first_free fs pPath pPrefix num :
  match TmpName fs pPath pPrefix num with
  | (Some name, num') =>
      num < num' <= num + 32768
      ∧ name = candidate pPath pPrefix num'
      ∧ fs !! name = None
      ∧ ∀ k, num < k < num' -> is_Some (fs !! candidate pPath pPrefix k)
  | (None, num') =>
      num' = num + 32768
      ∧ ∀ k, num < k <= num' -> is_Some (fs !! candidate pPath pPrefix k)
  end.
Proof.
  unfold TmpName.
  pose proof (TmpName_loop_spec pPath pPrefix fs (S (Z.to_nat SHRT_MAX)) num) as H.
  replace (Z.of_nat (S (Z.to_nat SHRT_MAX))) with 32768 in H by (unfold SHRT_MAX; lia).
  exact H.
Qed.

(** *** ExtractPathFromFSpec *)

Lemma has_delim_app s t : has_delim (s +:+ t) = has_delim s || has_delim t.
Proof.
  induction s as [|c s IH]; [done|].
  change (String c s +:+ t) with (String c (s +:+ t)).
  cbn [has_delim]. rewrite IH. by rewrite orb_assoc.
Qed.

Lemma substring_all s : String.substring 0 (String.length s) s = s.
Proof. induction s as [|c s IH]; [done|]. cbn. by rewrite IH. Qed.

Lemma has_delim_substring_S s : ∀ p, (p < String.length s)%nat ->
  has_delim (String.substring 0 (S p) s)
  = has_delim (String.substring 0 p s) || IS_PATH_DELIM (char_at s p).
Proof.
  induction s as [|c s IH]; intros p Hp; [cbn in Hp; lia|].
  destruct p as [|p].
  - cbn. destruct s; cbn; by rewrite orb_false_r.
  - cbn [String.length] in Hp.
    change (String.substring 0 (S (S p)) (String c s))
      with (String c (String.substring 0 (S p) s)).
    change (String.substring 0 (S p) (String c s))
      with (String c (String.substring 0 p s)).
    change (char_at (String c s) (S p)) with (char_at s p).
    cbn [has_delim]. rewrite IH by lia. by rewrite orb_assoc.
Qed.

Lemma scan_back_cons c s : ∀ p, (p <= String.length s)%nat ->
  scan_back (String c s) (S p)
  = if has_delim (String.substring 0 p s) then S (scan_back s p)
    else if IS_PATH_DELIM c then 1%nat else 0%nat.
Proof.
  induction p as [|p IH]; intros Hp.
  - cbn [scan_back]. change (char_at (String c s) 0) with c.
    destruct s; cbn; by destruct (IS_PATH_DELIM c).
  - change (scan_back (String c s) (S (S p)))
      with (if IS_PATH_DELIM (char_at s p) then S (S p)
            else scan_back (String c s) (S p)).
    rewrite has_delim_substring_S by lia.
    cbn [scan_back].
    destruct (IS_PATH_DELIM (char_at s p)).
    + by rewrite orb_true_r.
    + rewrite orb_false_r. apply IH. lia.
Qed.

(** X14 (the backward scan): the recursion on the string that the
    drivers use computes what the loop of [ExtractPathFromFSpec] computes,
    which goes back from the end of the string to the last path
    delimiter and cuts the string after it. *)
Theorem ExtractPathFromFSpec_scan filespec :
  ExtractPathFromFSpec filespec = ExtractPath_scan filespec.
Proof.
  unfold ExtractPath_scan.
  induction filespec as [|c s IH]; [done|].
  cbn [String.length ExtractPathFromFSpec].
  rewrite scan_back_cons, substring_all by done.
  destruct (has_delim s).
  - change (String.substring 0 (S ?n) (String c s))
      with (String c (String.substring 0 n s)). by rewrite IH.
  - destruct (IS_PATH_DELIM c); [|done]. cbn. by destruct s.
Qed.

Lemma ExtractPathFromFSpec_parts filespec :
  ∃ name,
    filespec = ExtractPathFromFSpec filespec +:+ name
    ∧ has_delim name = false
    ∧ (if has_delim filespec then ends_in_delim (ExtractPathFromFSpec filespec)
       else ExtractPathFromFSpec filespec = EmptyString).
Proof.
  induction filespec as [|c s (name & Hs & Hname & Hpath)].
  - by exists EmptyString.
  - cbn [ExtractPathFromFSpec has_delim]. destruct (has_delim s) eqn:Hd.
    + exists name. split.
      { change (String c (ExtractPathFromFSpec s) +:+ name)
          with (String c (ExtractPathFromFSpec s +:+ name)). by rewrite <- Hs. }
      split; [done|].
      rewrite orb_true_r. destruct Hpath as (dir & d & -> & Hdelim).
      by exists (String c dir), d.
    + rewrite orb_false_r. destruct (IS_PATH_DELIM c) eqn:Hc.
      * exists s. split; [done|]. split; [done|]. by exists EmptyString, c.
      * exists (String c s). split; [done|]. split; [|done].
        cbn. by rewrite Hc, Hd.
Qed.

(** X15 (path and name): the path and a rest make the file
    specification; the rest holds no delimiter, and the path is empty
    (when the specification has no delimiter) or ends in one. *)
Theorem ExtractPathFromFSpec_split filespec :
  ∃ name,
    filespec = ExtractPathFromFSpec filespec +:+ name
    ∧ has_delim name = false
    ∧ (if has_delim filespec then ends_in_delim (ExtractPathFromFSpec filespec)
       else ExtractPathFromFSpec filespec = EmptyString).
Proof. apply ExtractPathFromFSpec_parts. Qed.

(** X16 (the path of a path): the path of a path is the path itself. *)
Theorem ExtractPathFromFSpec_idempotent filespec :
  ExtractPathFromFSpec (ExtractPathFromFSpec filespec)
  = ExtractPathFromFSpec filespec.
Proof.
  induction filespec as [|c s IH]; [done|].
  cbn [ExtractPathFromFSpec]. destruct (has_delim s) eqn:Hd.
  - cbn [ExtractPathFromFSpec]. rewrite IH.
    destruct (ExtractPathFromFSpec_parts s) as (name & Hs & Hname & Hpath).
    rewrite Hd in Hpath. destruct Hpath as (dir & d & Hp & Hdelim).
    assert (has_delim (ExtractPathFromFSpec s) = true) as ->; [|done].
    rewrite Hp, has_delim_app. cbn. by rewrite Hdelim, orb_true_r.
  - destruct (IS_PATH_DELIM c) eqn:Hc; [|done]. cbn. by rewrite Hc.
Qed.

(** ** The drivers as a whole *)

Lemma always_bind (P Q : config -> Prop) w (m : prog unit) (f : unit -> prog unit) :
  always Q (w, m) ->
  (∀ w' p, Q (w', p) -> returned p = false -> P (w', p ≫= f)) ->
  (∀ w', Q (w', Ret tt) -> always P (w', f tt)) ->
  always P (w, m ≫= f).
Proof.
  intros Hm Hrun Hret evs.
  destruct (run_bind evs w m f) as (evs1 & evs2 & -> & -> & Hend).
  specialize (Hm evs1). destruct (run evs1 (w, m)) as [w1 p1]. cbn [fst snd] in *.
  destruct p1 as [[]|s|R c k].
  - by apply Hret.
  - destruct Hend as [->|]; [|done]. by apply Hrun.
  - destruct Hend as [->|]; [|done]. by apply Hrun.
Qed.

Lemma exited_bind (p : prog unit) (f : unit -> prog unit) :
  returned p = false -> exited (p ≫= f) = exited p.
Proof. by destruct p. Qed.

Lemma quiet_snoc h ev :
  EvSignalIgnore ∉ h -> ev ≠ EvSignalIgnore -> EvSignalIgnore ∉ h ++ [ev].
Proof.
  intros Hh Hev [H|H]%elem_of_app; [done|].
  apply list_elem_of_singleton in H. congruence.
Qed.

Lemma signal_snoc_here h : EvSignalIgnore ∈ h ++ [EvSignalIgnore].
Proof. apply elem_of_app. right. by apply list_elem_of_singleton. Qed.

Lemma signal_snoc h ev : EvSignalIgnore ∈ h -> EvSignalIgnore ∈ h ++ [ev].
Proof. intros H. apply elem_of_app. by left. Qed.

(** The handler's mark in a log that is written out. *)
Ltac signal_log :=
  repeat first
    [ assumption
    | apply signal_snoc_here
    | apply signal_snoc
    | apply quiet_snoc; [|discriminate] ].

Lemma FileSearch_file_search_only pIn w0 :
  fSearchReplace (opts w0) = false ->
  always (search_only w0) (w0, FileSearch_file pIn).
Proof.
  destruct w0 as [fs num crit pout pin msg o h]. cbn [opts].
  intros Hsr. unfold FileSearch_file.
  explore.
  all: unfold search_only, quiet; cbn [fst snd exited]; simpl_world.
  all: try rewrite Hsr in *; simpl_world.
  all: try discriminate.
  all: (split; [reflexivity | split; [reflexivity|]]).
  all: intros Hq.
  all: signal_log.
Qed.

Lemma search_only_trans w0 w1 c :
  files w1 = files w0 -> opts w1 = opts w0 -> (quiet w0 -> quiet w1) ->
  search_only w1 c -> search_only w0 c.
Proof.
  intros Hf Ho Hq (H1 & H2 & H3). unfold search_only. rewrite <- Hf, <- Ho.
  split; [done|]. split; [done|]. intros Hq0. apply H3. by apply Hq.
Qed.

Lemma FileSearch_search_only pFileList : ∀ w0,
  fSearchReplace (opts w0) = false ->
  always (search_only w0) (w0, FileSearch pFileList).
Proof.
  induction pFileList as [|pIn rest IH]; intros w0 Hsr.
  - apply always_stopped; [done|]. by unfold search_only.
  - cbn [FileSearch].
    apply (always_bind (search_only w0) (search_only w0)).
    + by apply FileSearch_file_search_only.
    + intros w' p (Hf & Ho & He) Hp. unfold search_only in *. cbn [fst snd] in *.
      by rewrite exited_bind.
    + intros w' (Hf & Ho & He). cbn [fst snd exited] in *.
      intros evs. apply (search_only_trans w0 w'); [done..|].
      apply IH. by rewrite Ho.
Qed.

(** X18 ([FileSearch] changes no file): in a process that does not replace,
    at every instant of every run of [FileSearch], interrupts included,
    the files are those of the start. *)
Theorem FileSearch_keeps_files pFileList w0 evs :
  fSearchReplace (opts w0) = false ->
  files (run evs (w0, FileSearch pFileList)).1 = files w0.
Proof. intros Hsr. by apply FileSearch_search_only. Qed.

(** X19 ([FileSearch] ignores the files it cannot open): [FileSearch] comes
    to [exit] only through [CtrlBreak]. *)
Theorem FileSearch_exits_on_interrupt_only pFileList w0 evs :
  fSearchReplace (opts w0) = false -> quiet w0 ->
  exited (run evs (w0, FileSearch pFileList)).2 = true ->
  EvSignalIgnore ∈ history (run evs (w0, FileSearch pFileList)).1.
Proof.
  intros Hsr Hq He.
  destruct (FileSearch_search_only pFileList w0 Hsr evs) as (_ & _ & H).
  specialize (H Hq). by rewrite He in H.
Qed.

Lemma SearchReplace_file_frame pIn w0 :
  clean w0 -> files w0 !! ExtractPathFromFSpec pIn = None ->
  always (frame (files w0) pIn) (w0, SearchReplace_file pIn).
Proof.
  destruct w0 as [fs num crit pout pin msg o h]. unfold clean. cbn [files pOutFile].
  intros Hclean Hpath.
  explore.
  all: unfold frame, clean; cbn [fst snd returned]; simpl_world.
  all: prep.
  all: try match goal with
       | Hc : ∀ p, Some ?q = Some p -> _ |- _ => specialize (Hc q eq_refl)
       end.
  all: (split; [intros f Hne Hf | intros Hret]).
  all: try discriminate Hret.
  all: try (split; [intros p Hp; simplify_eq | intros f]).
  all: lookups.
  all: try absurd_lookup.
  all: try congruence.
  all: try (by apply Hclean).
  all: try (split; intros; by eauto).
  all: match goal with
       | H : ?m !! ?f = None |- _ ↔ is_Some (?m !! ?f) => by rewrite H
       end.
Qed.

Lemma untouched_of_frame fs0 fs1 pIn rest c :
  (∀ f, f ≠ pIn -> is_Some (fs0 !! f) -> fs1 !! f = fs0 !! f) ->
  (∀ f, is_Some (fs1 !! f) ↔ is_Some (fs0 !! f)) ->
  untouched fs1 rest c -> untouched fs0 (pIn :: rest) c.
Proof.
  intros Hframe Hdom [Hu Hr]. split.
  - intros f Hf Hsome. apply not_elem_of_cons in Hf as [Hne Hf].
    rewrite <- (Hframe f Hne Hsome). apply Hu; [done|].
    by rewrite (Hframe f Hne Hsome).
  - intros Hret. destruct (Hr Hret) as [Hc Hd]. split; [done|].
    intros f. by rewrite Hd.
Qed.

Lemma SearchReplace_loop_untouched pFileList : ∀ w0,
  clean w0 ->
  (∀ pIn, pIn ∈ pFileList -> files w0 !! ExtractPathFromFSpec pIn = None) ->
  always (untouched (files w0) pFileList) (w0, SearchReplace_loop pFileList).
Proof.
  induction pFileList as [|pIn rest IH]; intros w0 Hclean Hpaths.
  - apply always_stopped; [done|]. by split.
  - cbn [SearchReplace_loop].
    apply (always_bind _ (frame (files w0) pIn)).
    + apply SearchReplace_file_frame; [done|]. apply Hpaths. by left.
    + intros w1 p [Hf _] Hp. split.
      * intros f Hne Hsome. apply not_elem_of_cons in Hne as [Hne _].
        by apply Hf.
      * cbn [snd]. destruct p; try discriminate; intros; discriminate.
    + intros w1 [Hf Hr]. cbn [fst snd returned] in *.
      destruct (Hr eq_refl) as [Hc Hd]. intros evs.
      apply (untouched_of_frame (files w0) (files w1)); [done..|].
      apply IH; [done|]. intros pIn1 Hin.
      apply eq_None_not_Some. rewrite Hd. apply eq_None_not_Some.
      apply Hpaths. by right.
Qed.

Lemma SearchReplace_always_untouched pFileList w0 :
  clean w0 ->
  (∀ pIn, pIn ∈ pFileList -> files w0 !! ExtractPathFromFSpec pIn = None) ->
  always (untouched (files w0) pFileList) (w0, SearchReplace pFileList).
Proof.
  intros Hclean Hpaths.
  unfold SearchReplace, do, mbind, prog_bind. cbn [bind].
  apply always_call.
  - split; [done|]. discriminate.
  - intros e r w1 [= <- <-].
    apply (SearchReplace_loop_untouched pFileList (with_fpMsg Stdout w0));
      [exact Hclean | exact Hpaths].
  - intros Hcrit e. split; [|discriminate].
    intros f Hf Hsome. unfold CtrlBreak. rewrite Hcrit. cbn [fst].
    destruct w0 as [fs num crit pout pin msg o h]. simpl_world.
    unfold clean in Hclean. simpl_world.
    destruct pout as [p|]; [|done].
    destruct (fSearchReplace o && negb (fFilter o)); [|done].
    cbn [perform]. simpl_world. rewrite (Hclean p eq_refl).
    rewrite andb_false_r. done.
Qed.

(** X20 (in-place mode touches the files of its list only): a file that
    was there at the start and is not on the list is the same at every
    instant of every run of [SearchReplace], interrupts included, when at
    the start [CtrlBreak] has no file to remove and no file has the name
    of a directory prefix of the list. *)
Theorem SearchReplace_other_files pFileList w0 evs f :
  clean w0 ->
  (∀ pIn, pIn ∈ pFileList -> files w0 !! ExtractPathFromFSpec pIn = None) ->
  f ∉ pFileList -> is_Some (files w0 !! f) ->
  files (run evs (w0, SearchReplace pFileList)).1 !! f = files w0 !! f.
Proof.
  intros Hclean Hpaths Hf Hsome.
  destruct (SearchReplace_always_untouched pFileList w0 Hclean Hpaths evs)
    as [H _].
  by apply H.
Qed.

(** X21 (in-place mode leaves no file behind): when [SearchReplace]
    returns, the names of the files are those of the start: every
    temporary file is gone and no input file is missing. *)
Theorem SearchReplace_no_leftover pFileList w0 evs f :
  clean w0 ->
  (∀ pIn, pIn ∈ pFileList -> files w0 !! ExtractPathFromFSpec pIn = None) ->
  returned (run evs (w0, SearchReplace pFileList)).2 = true ->
  is_Some (files (run evs (w0, SearchReplace pFileList)).1 !! f)
  ↔ is_Some (files w0 !! f).
Proof.
  intros Hclean Hpaths Hret.
  destruct (SearchReplace_always_untouched pFileList w0 Hclean Hpaths evs)
    as [_ H].
  by apply H.
Qed.

(** The log holds no pass that reported the write failure. *)
Ltac no_failure H :=
  repeat (apply elem_of_cons in H as [H|H];
          [first [discriminate H | injection H as H; congruence]|]);
  try (by apply elem_of_nil in H).

Lemma SearchReplace_file_write_failure_safe pIn w0 :
  history w0 = [] ->
  always (write_failure_safe (files w0) pIn) (w0, SearchReplace_file pIn).
Proof.
  destruct w0 as [fs num crit pout pin msg o h]. cbn [history files]. intros ->.
  explore.
  all: unfold write_failure_safe; cbn [fst snd returned]; simpl_world.
  all: prep.
  all: intros Hfail.
  all: try (solve [exfalso; no_failure Hfail]).
  all: (split; [no_rename_tac | split; [|reflexivity]]).
  all: lookups.
  all: try absurd_lookup.
  all: try congruence.
Qed.

Lemma OneSearchReplace_write_failure_safe pFileList pIn pOut w0 :
  history w0 = [] ->
  pick_files pFileList None (pOutFile w0) = (Some pIn, Some pOut) ->
  pIn ≠ pOut ->
  always (write_failure_safe (files w0) pIn) (w0, OneSearchReplace pFileList).
Proof.
  destruct w0 as [fs num crit pout pin msg o h]. cbn [history files pOutFile].
  intros -> Hpick Hne.
  explore.
  all: repeat match goal with
         | H : pick_files _ _ _ = _ |- _ => rewrite Hpick in H
         end; simplify_eq.
  all: unfold write_failure_safe; cbn [fst snd returned]; simpl_world.
  all: prep.
  all: intros Hfail.
  all: try (solve [exfalso; no_failure Hfail]).
  all: (split; [no_rename_tac | split; [|reflexivity]]).
  all: lookups.
  all: try absurd_lookup.
  all: try congruence.
Qed.

Lemma OneSearchReplace_refuses pFileList pIn pOut w0 :
  history w0 = [] -> fForce (opts w0) = false ->
  pick_files pFileList None (pOutFile w0) = (Some pIn, Some pOut) ->
  is_Some (files w0 !! pOut) ->
  always (refuses (files w0)) (w0, OneSearchReplace pFileList).
Proof.
  destruct w0 as [fs num crit pout pin msg o h].
  cbn [history files pOutFile opts].
  intros -> Hforce Hpick Hout.
  explore.
  all: repeat match goal with
         | H : pick_files _ _ _ = _ |- _ => rewrite Hpick in H
         end; simplify_eq.
  all: unfold refuses, quiet, no_pass_yet; cbn [fst snd returned]; simpl_world.
  all: try rewrite Hforce in *; cbn [negb] in *.
  all: repeat match goal with
         | H : context [_ && true] |- _ => rewrite andb_true_r in H
         end.
  all: prep.
  all: try discriminate.
  all: try contradiction.
  all: try absurd_lookup.
  all: (split; [reflexivity|]).
  all: intros Hq.
  all: try (solve [exfalso; apply Hq; in_history]).
  all: (split; [reflexivity|]).
  all: intros n Hn; not_in_history Hn.
Qed.

Lemma StreamSearchReplace_filter_only w0 :
  history w0 = [] -> fFilter (opts w0) = true ->
  always (filter_only (files w0)) (w0, StreamSearchReplace).
Proof.
  destruct w0 as [fs num crit pout pin msg o h].
  cbn [history files opts]. intros -> Hfilter.
  explore.
  all: unfold filter_only; cbn [fst snd]; simpl_world.
  all: try rewrite Hfilter in *; try rewrite andb_false_r in *.
  all: try discriminate.
  all: (split; [reflexivity|]).
  all: intros to fmt args Hin.
  all: repeat (apply elem_of_cons in Hin as [Hin|Hin];
               [first [discriminate Hin | by injection Hin as -> _ _]|]).
  all: by apply elem_of_nil in Hin.
Qed.

(** X22 (write failure in in-place mode): at every instant after the pass
    has reported the write failure, [SearchReplace] has called no rename,
    the input file is as it was at the start, and the body of the loop
    does not return: the files that follow on the list are not
    processed. *)
Theorem SearchReplace_file_write_failure pIn w0 evs :
  history w0 = [] ->
  write_failure_safe (files w0) pIn (run evs (w0, SearchReplace_file pIn)).
Proof. intros Hh. by apply SearchReplace_file_write_failure_safe. Qed.

(** X23 (write failure in explicit-output mode): the same for
    [OneSearchReplace] with an output name other than the input name. *)
Theorem OneSearchReplace_write_failure pFileList pIn pOut w0 evs :
  history w0 = [] ->
  pick_files pFileList None (pOutFile w0) = (Some pIn, Some pOut) ->
  pIn ≠ pOut ->
  write_failure_safe (files w0) pIn (run evs (w0, OneSearchReplace pFileList)).
Proof. intros Hh Hpick Hne. by apply (OneSearchReplace_write_failure_safe _ _ pOut). Qed.

(** X24 (an output file that exists is refused): without the force flag,
    when the output file exists, [OneSearchReplace] never returns, and
    unless [CtrlBreak] has run no file has changed and no pass was
    run. *)
Theorem OneSearchReplace_refuses_existing pFileList pIn pOut w0 evs :
  history w0 = [] -> fForce (opts w0) = false ->
  pick_files pFileList None (pOutFile w0) = (Some pIn, Some pOut) ->
  is_Some (files w0 !! pOut) ->
  refuses (files w0) (run evs (w0, OneSearchReplace pFileList)).
Proof. intros Hh Hf Hpick Hout. by apply (OneSearchReplace_refuses _ pIn pOut). Qed.

(** X27 (filter mode): with the filter flag, at every instant of every
    run of [StreamSearchReplace], interrupts included, the files are
    those of the start, and every message was written to [stderr]. *)
Theorem StreamSearchReplace_filter w0 evs :
  history w0 = [] -> fFilter (opts w0) = true ->
  filter_only (files w0) (run evs (w0, StreamSearchReplace)).
Proof. intros Hh Hf. by apply StreamSearchReplace_filter_only. Qed.

(** X17 (what [CtrlBreak] removes): a file that [CtrlBreak] changes is
    the one that [pOutFile] names, in replace mode on files and outside
    the critical part; and it is removed. *)
Theorem CtrlBreak_removes_only_output e w f :
  files (CtrlBreak e w).1 !! f ≠ files w !! f ->
  fCriticalPart w = false ∧ fSearchReplace (opts w) = true
  ∧ fFilter (opts w) = false ∧ pOutFile w = Some f
  ∧ files (CtrlBreak e w).1 !! f = None.
Proof.
  destruct w as [fs num crit pout pin msg o h]. unfold CtrlBreak. simpl_world.
  destruct crit; [done|]. destruct pout as [p|]; [|done]. simpl_world.
  destruct (fSearchReplace o) eqn:Hsr; [|done].
  destruct (fFilter o) eqn:Hf; [done|]. cbn [andb negb perform]. simpl_world.
  destruct (os_ok e && bool_decide (is_Some (fs !! p))); [|done]. simpl_world.
  intros Hne. destruct (decide (p = f)) as [->|Hpf].
  - by rewrite lookup_delete_eq.
  - by rewrite lookup_delete_ne in Hne.
Qed.

Lemma CtrlBreak_removes_only_output_witness :
  let w := World {[ "t" := [1] ]} 0 false (Some "t") None Stdout
                 (Flags true false false) [] in
  fCriticalPart w = false ∧ fSearchReplace (opts w) = true
  ∧ fFilter (opts w) = false ∧ pOutFile w = Some "t"
  ∧ files (CtrlBreak (reports 0) w).1 !! "t" = None.
Proof.
  apply (CtrlBreak_removes_only_output (reports 0)
           (World {[ "t" := [1] ]} 0 false (Some "t") None Stdout
                  (Flags true false false) []) "t").
  vm_compute. discriminate.
Defined.

Lemma run_Step e evs w {R} (c : call R) (k : R -> prog unit) :
  run (Step e :: evs) (w, Call c k)
  = run evs ((perform c e w).2, k (perform c e w).1).
Proof.
  rewrite run_cons. unfold step. cbn [fst snd]. by destruct (perform c e w).
Qed.

Lemma run_Sigint e evs w {R} (c : call R) (k : R -> prog unit) :
  fCriticalPart w = false ->
  run (Sigint e :: evs) (w, Call c k)
  = ((CtrlBreak e w).1, Exit EXIT_FAILURE).
Proof.
  intros Hcrit. rewrite run_cons. unfold step. cbn [fst snd].
  unfold CtrlBreak. rewrite Hcrit. by rewrite run_stopped.
Qed.

(** One call of a run whose events are written out; the state stays a
    pair that is written out. *)
Ltac one_step :=
  rewrite run_Step;
  cbn [perform fst snd bind negb Z.eqb Pos.eqb Z.ltb Z.compare Pos.compare
       Pos.compare_cont];
  simpl_world.

(** X25 (an interrupt removes an output file that was there): in
    explicit-output mode, when the output file exists at the start and
    the signal arrives after [pOutFile] is set (five calls into
    [OneSearchReplace], before the test that refuses an output file that
    exists), [CtrlBreak] removes that file, whatever the force flag. *)
Theorem OneSearchReplace_interrupt_removes_output pFileList pIn pOut w0 e :
  fCriticalPart w0 = false ->
  fSearchReplace (opts w0) = true -> fFilter (opts w0) = false ->
  pick_files pFileList None (pOutFile w0) = (Some pIn, Some pOut) ->
  is_Some (files w0 !! pOut) -> os_ok e = true ->
  output_lost (files w0) pOut
    (run (repeat (Step e) 5 ++ [Sigint e]) (w0, OneSearchReplace pFileList)).
Proof.
  destruct w0 as [fs num crit pout pin msg o h]. simpl_world.
  intros -> Hsr Hf Hpick Hout Hok.
  unfold OneSearchReplace, OneSearchReplace_files, fCheckFile, Abort, do,
    mbind, mret, prog_bind, prog_ret.
  cbn [repeat app bind]. do 3 one_step. rewrite Hpick. cbn [bind]. do 2 one_step.
  rewrite run_Sigint by reflexivity.
  unfold CtrlBreak. simpl_world. rewrite Hsr, Hf. cbn [andb negb perform].
  simpl_world. rewrite Hok, bool_decide_eq_true_2 by done. done.
Qed.

(** X26 (the commit of in-place mode): when the input file exists, a
    temporary name is free, the operating system lets every call succeed
    and the pass reports at least one match, the body of the loop of
    [SearchReplace] returns after sixteen calls; the files are those of
    the start with the input file holding what the pass wrote, and
    [pOutFile] still names the temporary file. *)
Theorem SearchReplace_file_commits pIn w0 e tmp n :
  is_Some (files w0 !! pIn) -> os_ok e = true -> 0 < bmg_count e ->
  (TmpName (files w0) (ExtractPathFromFSpec pIn) "gsr_" (TmpNum w0)).1
    = Some tmp ->
  committed (files w0) pIn (bmg_output e) tmp
    (run (repeat (Step e) (16 + n)) (w0, SearchReplace_file pIn)).
Proof.
  destruct w0 as [fs num crit pout pin msg o h]. simpl_world.
  intros Hin Hok Hcount Htmp.
  destruct (TmpName fs (ExtractPathFromFSpec pIn) "gsr_" num) as [name num1] eqn:HT.
  cbn [fst] in Htmp. subst name.
  pose proof (TmpName_fresh _ _ _ _ _ _ HT) as Hfresh.
  assert (Hne : tmp ≠ pIn).
  { intros ->. rewrite Hfresh in Hin. by destruct Hin. }
  assert (Hres : bmg_result e = bmg_count e) by (unfold bmg_result; lia).
  unfold SearchReplace_file, fCheckFile, Abort, do,
    mbind, mret, prog_bind, prog_ret.
  cbn [Nat.add repeat bind].
  do 2 one_step. rewrite (bool_decide_eq_true_2 _ Hin). cbn [negb bind].
  one_step. rewrite Hok, (bool_decide_eq_true_2 _ Hin). cbn [andb negb bind].
  do 2 one_step. rewrite HT. simpl_world.
  one_step. one_step. rewrite Hok. simpl_world. cbn [negb bind].
  do 2 one_step. rewrite Hres.
  destruct (Z.eqb_spec (bmg_count e) (-1)) as [|_]; [lia|].
  destruct (Z.eqb_spec (bmg_count e) 0) as [|_]; [lia|].
  cbn [bind]. do 3 one_step.
  one_step. rewrite Hok.
  rewrite bool_decide_eq_true_2
    by (by rewrite !lookup_insert_ne by done).
  cbn [andb]. simpl_world. cbn [bind negb Z.eqb].
  one_step.
  rewrite lookup_delete_ne, lookup_insert_eq by done. rewrite Hok. simpl_world.
  cbn [bind negb Z.eqb].
  do 2 one_step.
  rewrite run_stopped by reflexivity.
  unfold committed. cbn [fst snd]. simpl_world.
  split; [done|]. split; [|done].
  apply map_eq. intros k.
  destruct (decide (k = pIn)) as [->|Hk].
  - by rewrite !lookup_insert_eq.
  - rewrite !lookup_insert_ne by done.
    destruct (decide (k = tmp)) as [->|Hkt].
    + by rewrite lookup_delete_eq.
    + rewrite lookup_delete_ne by done. rewrite lookup_delete_ne by done.
      by rewrite !lookup_insert_ne by done.
Qed.

Lemma pick_files_full l pIn pOut :
  pick_files l (Some pIn) (Some pOut) = (Some pIn, Some pOut).
Proof. induction l as [|f l IH]; [done|]. exact IH. Qed.

Lemma pick_files_in l pIn :
  pick_files l (Some pIn) None = (Some pIn, head l).
Proof. destruct l as [|f l]; [done|]. cbn. apply pick_files_full. Qed.

(** X28 (the names of explicit-output mode): the input file is the first
    name of the list; the output file is the one that [pOutFile] holds
    already, or else the second name; the names that follow are
    ignored. *)
Theorem pick_files_names pFileList pOut :
  pick_files pFileList None pOut
  = (head pFileList,
     match pOut with Some _ => pOut | None => pFileList !! 1%nat end).
Proof.
  destruct pFileList as [|pIn l]; [by destruct pOut|].
  cbn [pick_files head]. destruct pOut as [o|].
  - apply pick_files_full.
  - rewrite pick_files_in. by destruct l.
Qed.

(** X29 (explicit-output mode writes the output file): when the input
    file exists, the output file is not there or the force flag is set,
    the operating system lets every call succeed and the pass reports at
    least one match, [OneSearchReplace] returns after seventeen calls;
    the files are those of the start with the output file holding what
    the pass wrote, and [pOutFile] is reset, so that a later interrupt
    removes nothing. *)
Theorem OneSearchReplace_writes_output pFileList pIn pOut w0 e n :
  pick_files pFileList None (pOutFile w0) = (Some pIn, Some pOut) ->
  is_Some (files w0 !! pIn) ->
  files w0 !! pOut = None ∨ fForce (opts w0) = true ->
  os_ok e = true -> 0 < bmg_count e ->
  output_written (files w0) pOut (bmg_output e)
    (run (repeat (Step e) (17 + n)) (w0, OneSearchReplace pFileList)).
Proof.
  destruct w0 as [fs num crit pout pin msg o h]. simpl_world.
  intros Hpick Hin Hout Hok Hcount.
  assert (Hres : bmg_result e = bmg_count e) by (unfold bmg_result; lia).
  assert (Hfree : bool_decide (is_Some (fs !! pOut)) && negb (fForce o) = false).
  { destruct Hout as [Hnone| ->]; [|by rewrite andb_false_r].
    rewrite bool_decide_eq_false_2; [done|]. rewrite Hnone. by intros [? ?]. }
  unfold OneSearchReplace, OneSearchReplace_files, fCheckFile, Abort, do,
    mbind, mret, prog_bind, prog_ret.
  cbn [Nat.add repeat bind].
  do 3 one_step. rewrite Hpick. cbn [bind].
  do 3 one_step. rewrite (bool_decide_eq_true_2 _ Hin). cbn [negb bind].
  one_step. rewrite Hok, (bool_decide_eq_true_2 _ Hin). cbn [andb negb bind].
  do 2 one_step. rewrite Hfree. cbn [bind].
  one_step. rewrite Hok. simpl_world. cbn [negb bind].
  one_step. rewrite Hres.
  destruct (Z.eqb_spec (bmg_count e) (-1)) as [|_]; [lia|].
  destruct (Z.eqb_spec (bmg_count e) 0) as [|_]; [lia|].
  cbn [bind]. do 6 one_step.
  rewrite run_stopped by reflexivity.
  unfold output_written. cbn [fst snd]. simpl_world.
  split; [done|]. split; [|done].
  by rewrite insert_insert_eq.
Qed.

Lemma OneSearchReplace_writes_output_witness :
  output_written example_files "b.txt" [9]
    (run (repeat (Step (reports 2)) (17 + 0))
         (example_world, OneSearchReplace ["a.txt"; "b.txt"])).
Proof.
  apply (OneSearchReplace_writes_output ["a.txt"; "b.txt"] "a.txt" "b.txt"
           example_world (reports 2) 0 eq_refl).
  - vm_compute. by eexists.
  - left. vm_compute. reflexivity.
  - reflexivity.
  - reflexivity.
Defined.

(** ** Instances *)

Lemma GetPattern_decimal_forms_witness :
  GetPattern_loop 8 (cstr ": -5") [] = Returned [251].
Proof.
  apply (GetPattern_decimal_forms 8 32 45 53 [] []); [lia | vm_compute; lia].
Defined.

Lemma GetPattern_hex_forms_witness :
  GetPattern_loop 8 (cstr ":x4a") [] = Returned [74].
Proof.
  apply (GetPattern_hex_forms 8 120 52 97 [] []); reflexivity.
Defined.

Lemma GetPattern_escape_round_trip_witness :
  GetPattern 8 (escape_colons (cstr "a:b")) = Returned (cstr "a:b").
Proof. apply (GetPattern_escape_round_trip 8 (cstr "a:b")). cbn. lia. Defined.

Lemma GetPattern_plain_witness :
  GetPattern 8 (cstr "abc") = Returned (cstr "abc").
Proof.
  apply (GetPattern_plain 8 (cstr "abc")); [|cbn; lia].
  intros H. not_in_history H.
Defined.

Lemma GetPattern_length_witness :
  (length [97; 58] <= 8)%nat ∧ (length [97; 58] <= length (cstr "a::"))%nat.
Proof. apply (GetPattern_length 8 (cstr "a::") [97; 58]). reflexivity. Defined.

Lemma GetPattern_app_witness :
  GetPattern 8 (cstr "a::" ++ cstr ":x41") = Returned ([97; 58] ++ [65]).
Proof.
  apply (GetPattern_app 8 (cstr "a::") (cstr ":x41") [97; 58] [65]);
    [reflexivity | reflexivity | cbn; lia].
Defined.

Lemma FileSearch_keeps_files_witness :
  files (run (repeat (Step (reports 2)) 3 ++ [Sigint (reports 2)])
             (initial example_files (Flags false false false),
              FileSearch ["a.txt"; "none"])).1
  = files (initial example_files (Flags false false false)).
Proof.
  apply (FileSearch_keeps_files ["a.txt"; "none"]
           (initial example_files (Flags false false false))).
  reflexivity.
Defined.

Lemma FileSearch_exits_on_interrupt_only_witness :
  EvSignalIgnore ∈
    history (run (repeat (Step (reports 2)) 3 ++ [Sigint (reports 2)])
                 (initial example_files (Flags false false false),
                  FileSearch ["a.txt"; "none"])).1.
Proof.
  apply (FileSearch_exits_on_interrupt_only ["a.txt"; "none"]
           (initial example_files (Flags false false false))).
  - reflexivity.
  - apply not_elem_of_nil.
  - vm_compute. reflexivity.
Defined.

Lemma SearchReplace_other_files_witness :
  files (run (repeat (Step (reports 2)) 15)
             (initial example_pair example_flags, SearchReplace ["a.txt"])).1
    !! "b.txt"
  = files (initial example_pair example_flags) !! "b.txt".
Proof.
  apply (SearchReplace_other_files ["a.txt"]
           (initial example_pair example_flags)).
  - intros p H. discriminate H.
  - intros pIn ->%list_elem_of_singleton. vm_compute. reflexivity.
  - intros H. not_in_history H.
  - vm_compute. by eexists.
Defined.

Lemma SearchReplace_no_leftover_witness :
  is_Some (files (run (repeat (Step (reports 2)) 20)
                      (initial example_pair example_flags,
                       SearchReplace ["a.txt"])).1 !! "gsr_0000.tmp")
  ↔ is_Some (files (initial example_pair example_flags) !! "gsr_0000.tmp").
Proof.
  apply (SearchReplace_no_leftover ["a.txt"]
           (initial example_pair example_flags)).
  - intros p H. discriminate H.
  - intros pIn ->%list_elem_of_singleton. vm_compute. reflexivity.
  - vm_compute. reflexivity.
Defined.

Lemma SearchReplace_file_write_failure_witness :
  let c := run (repeat (Step (reports (-1))) 20)
               (example_world, SearchReplace_file "a.txt") in
  no_rename c.1 ∧ files c.1 !! "a.txt" = example_files !! "a.txt"
  ∧ returned c.2 = false.
Proof.
  apply (SearchReplace_file_write_failure "a.txt" example_world
           (repeat (Step (reports (-1))) 20) eq_refl).
  apply (list_elem_of_lookup_2 _ 2). vm_compute. reflexivity.
Defined.

Lemma OneSearchReplace_write_failure_witness :
  let c := run (repeat (Step (reports (-1))) 20)
               (example_world, OneSearchReplace ["a.txt"; "b.txt"]) in
  no_rename c.1 ∧ files c.1 !! "a.txt" = example_files !! "a.txt"
  ∧ returned c.2 = false.
Proof.
  apply (OneSearchReplace_write_failure ["a.txt"; "b.txt"] "a.txt" "b.txt"
           example_world (repeat (Step (reports (-1))) 20) eq_refl eq_refl).
  - discriminate.
  - apply (list_elem_of_lookup_2 _ 2). vm_compute. reflexivity.
Defined.

Lemma OneSearchReplace_refuses_existing_witness :
  refuses example_pair
    (run (repeat (Step (reports 2)) 12)
         (initial example_pair example_flags,
          OneSearchReplace ["a.txt"; "b.txt"])).
Proof.
  apply (OneSearchReplace_refuses_existing ["a.txt"; "b.txt"] "a.txt" "b.txt"
           (initial example_pair example_flags)
           (repeat (Step (reports 2)) 12) eq_refl eq_refl eq_refl).
  vm_compute. by eexists.
Defined.

Lemma OneSearchReplace_interrupt_removes_output_witness :
  output_lost example_pair "b.txt"
    (run (repeat (Step (reports 2)) 5 ++ [Sigint (reports 2)])
         (initial example_pair example_flags,
          OneSearchReplace ["a.txt"; "b.txt"])).
Proof.
  apply (OneSearchReplace_interrupt_removes_output ["a.txt"; "b.txt"]
           "a.txt" "b.txt" (initial example_pair example_flags) (reports 2)
           eq_refl eq_refl eq_refl eq_refl); [|reflexivity].
  vm_compute. by eexists.
Defined.

Lemma SearchReplace_file_commits_witness :
  committed example_files "a.txt" [9] "gsr_0000.tmp"
    (run (repeat (Step (reports 2)) (16 + 0))
         (example_world, SearchReplace_file "a.txt")).
Proof.
  apply (SearchReplace_file_commits "a.txt" example_world (reports 2)
           "gsr_0000.tmp" 0).
  - vm_compute. by eexists.
  - reflexivity.
  - reflexivity.
  - vm_compute. reflexivity.
Defined.

Lemma StreamSearchReplace_filter_witness :
  filter_only example_files
    (run (repeat (Step (reports 2)) 6)
         (initial example_files (Flags true false true), StreamSearchReplace)).
Proof.
  apply (StreamSearchReplace_filter
           (initial example_files (Flags true false true))
           (repeat (Step (reports 2)) 6) eq_refl eq_refl).
Defined.
